(** * A URL shortener: the record model, the code generators and the
      route handlers, embedded from the JavaScript sources.

    Conventions of the embedding.
    - JavaScript Numbers that hold integers (click counters, click limits,
      millisecond timestamps) are [Z]; they stay far inside the range where
      IEEE doubles are exact on integers.  The one fractional computation of
      the program, [Math.random() * chars.length], is modelled with its
      rounding (module [JS], [fmul_int]).
    - Strings are [string]; every string the program inspects by length or by
      character class is ASCII on the accepted paths.
    - A request is served at one instant [now]: each [new Date()] and
      [Date.now()] evaluated while serving it reads that instant.
    - The [urls] collection is the list of its documents in natural order;
      [findOne] returns the first match. *)

From Stdlib Require Import ZArith List String Ascii Bool Lia Arith DecimalString.
From Stdlib Require Import Permutation Sorted.
Import ListNotations.
Local Open Scope string_scope.
Local Open Scope list_scope.
Local Open Scope Z_scope.

(* ================================================================== *)
(** ** JavaScript values the program relies on *)
(* ================================================================== *)

Module JS.

(** Truthiness of a string that may be [undefined]: only [undefined] and the
    empty string are falsy. *)
Definition truthy_str (s : option string) : bool :=
  match s with
  | None => false
  | Some EmptyString => false
  | Some _ => true
  end.

(** [a || d] on strings. *)
Definition or_else (a : option string) (d : string) : string :=
  match a with
  | Some s => if truthy_str a then s else d
  | None => d
  end.

(** [a || b] where both may be [undefined]. *)
Definition or_opt (a b : option string) : option string :=
  if truthy_str a then a else b.

(** ASCII white space, the part of [\s] a validated string can contain. *)
Definition is_space (c : ascii) : bool :=
  match nat_of_ascii c with
  | 9%nat | 10%nat | 11%nat | 12%nat | 13%nat | 32%nat => true
  | _ => false
  end.

Fixpoint trimStart (s : string) : string :=
  match s with
  | EmptyString => EmptyString
  | String c s' => if is_space c then trimStart s' else s
  end.

Fixpoint trimEnd (s : string) : string :=
  match s with
  | EmptyString => EmptyString
  | String c s' =>
      match trimEnd s' with
      | EmptyString => if is_space c then EmptyString else String c EmptyString
      | t => String c t
      end
  end.

(** [s.trim()], the setter Mongoose runs for [trim: true]. *)
Definition trim (s : string) : string := trimEnd (trimStart s).

(** A count in a template literal: its decimal digits. *)
Definition decimal (n : nat) : string :=
  NilZero.string_of_uint (Nat.to_uint n).

(** Truthiness of a Number that may be [null]: [null] and [0] are falsy. *)
Definition truthy_num (n : option Z) : bool :=
  match n with
  | None => false
  | Some v => negb (v =? 0)
  end.

(** [s.charAt(i)]: the one-character string at index [i], or the empty string
    when [i] is out of range. *)
Definition charAt (s : string) (i : Z) : string :=
  if i <? 0 then EmptyString
  else match String.get (Z.to_nat i) s with
       | Some c => String c EmptyString
       | None => EmptyString
       end.

(** [s[i]]: [undefined] out of range. *)
Definition index (s : string) (i : Z) : option ascii :=
  if i <? 0 then None else String.get (Z.to_nat i) s.

(** [result += v] where [v] may be [undefined]. *)
Definition append_indexed (result : string) (v : option ascii) : string :=
  match v with
  | Some c => (result ++ String c EmptyString)%string
  | None => (result ++ "undefined")%string
  end.

(** [arr.slice(-n)]: the elements from index [max (length - n) 0] on. *)
Definition slice_last {A} (n : nat) (arr : list A) : list A :=
  skipn (List.length arr - n) arr.

(** A double in the half-open unit interval: [mant / 2^shift] with a
    significand of at most 53 bits.  Every double [0 <= r < 1], normal or
    subnormal, has this form with [53 <= shift <= 1074]. *)
Record double01 := { mant : Z; shift : Z }.

Definition in_unit (r : double01) : Prop :=
  0 <= mant r < 2 ^ 53 /\ 53 <= shift r <= 1074.

Definition in_unitb (r : double01) : bool :=
  (0 <=? mant r) && (mant r <? 2 ^ 53) && (53 <=? shift r) && (shift r <=? 1074).

(** Round a non-negative integer to 53 significant bits, ties to even. *)
Definition round53 (p : Z) : Z :=
  let s := Z.log2 p - 52 in
  if s <=? 0 then p
  else
    let q := p / 2 ^ s in
    let rem := p mod 2 ^ s in
    let half := 2 ^ (s - 1) in
    let q' := if (half <? rem) || ((rem =? half) && Z.odd q) then q + 1 else q in
    q' * 2 ^ s.

(** [r * n] for a small non-negative integer [n], as the double product:
    the exact product [mant * n / 2^shift] rounded to nearest.  The result
    keeps the exponent of [r]; a product in the subnormal range has a
    significand below [2^53] and is exact. *)
Definition fmul_int (r : double01) (n : Z) : double01 :=
  {| mant := round53 (mant r * n); shift := shift r |}.

(** [Math.floor] of a non-negative double. *)
Definition Math_floor (r : double01) : Z := mant r / 2 ^ shift r.

End JS.

(* ================================================================== *)
(** ** server/models/Url.js *)
(* ================================================================== *)

Definition ObjectId := N.
Definition Date := Z.

Record ClickData := {
  cd_ip : option string;
  cd_userAgent : option string;
  cd_referer : option string;
  cd_country : option string;
  cd_city : option string
}.

Record Click := {
  ip : option string;
  userAgent : option string;
  referer : option string;
  country : string;
  city : string;
  timestamp : Date
}.

Record Url := {
  _id : ObjectId;
  originalUrl : string;
  shortCode : string;
  customCode : bool;
  userId : option ObjectId;
  clicks : Z;
  maxClicks : option Z;
  expiresAt : option Date;
  isActive : bool;
  title : option string;
  description : option string;
  tags : list string;
  clickHistory : list Click;
  createdAt : Date;
  updatedAt : Date
}.

Module UrlModel.

(** [isExpired]: a document without [expiresAt] never expires. *)
Definition isExpired (now : Date) (this : Url) : bool :=
  match expiresAt this with
  | None => false
  | Some e => e <? now
  end.

(** [hasReachedMaxClicks]: [null] (and [0]) mean unlimited. *)
Definition hasReachedMaxClicks (this : Url) : bool :=
  if negb (JS.truthy_num (maxClicks this)) then false
  else match maxClicks this with
       | Some m => m <=? clicks this
       | None => false
       end.

Definition isAccessible (now : Date) (this : Url) : bool :=
  isActive this && negb (isExpired now this) && negb (hasReachedMaxClicks this).

(** The entry [addClick] pushes. *)
Definition click_entry (now : Date) (clickData : ClickData) : Click :=
  {| ip := cd_ip clickData;
     userAgent := cd_userAgent clickData;
     referer := cd_referer clickData;
     country := JS.or_else (cd_country clickData) "Unknown";
     city := JS.or_else (cd_city clickData) "Unknown";
     timestamp := now |}.

Definition set_clicks (n : Z) (u : Url) : Url :=
  {| _id := _id u; originalUrl := originalUrl u; shortCode := shortCode u;
     customCode := customCode u; userId := userId u; clicks := n;
     maxClicks := maxClicks u; expiresAt := expiresAt u; isActive := isActive u;
     title := title u; description := description u; tags := tags u;
     clickHistory := clickHistory u; createdAt := createdAt u;
     updatedAt := updatedAt u |}.

Definition set_clickHistory (h : list Click) (u : Url) : Url :=
  {| _id := _id u; originalUrl := originalUrl u; shortCode := shortCode u;
     customCode := customCode u; userId := userId u; clicks := clicks u;
     maxClicks := maxClicks u; expiresAt := expiresAt u; isActive := isActive u;
     title := title u; description := description u; tags := tags u;
     clickHistory := h; createdAt := createdAt u; updatedAt := updatedAt u |}.

Definition set_updatedAt (t : Date) (u : Url) : Url :=
  {| _id := _id u; originalUrl := originalUrl u; shortCode := shortCode u;
     customCode := customCode u; userId := userId u; clicks := clicks u;
     maxClicks := maxClicks u; expiresAt := expiresAt u; isActive := isActive u;
     title := title u; description := description u; tags := tags u;
     clickHistory := clickHistory u; createdAt := createdAt u; updatedAt := t |}.

(** The first two statements of [addClick]: count the click, push its entry. *)
Definition addClick_push (now : Date) (clickData : ClickData) (this : Url) : Url :=
  let this := set_clicks (clicks this + 1) this in
  set_clickHistory (clickHistory this ++ [click_entry now clickData]) this.

(** The third statement: keep only the last 100 entries. *)
Definition addClick_trim (this : Url) : Url :=
  if (100 <? List.length (clickHistory this))%nat
  then set_clickHistory (JS.slice_last 100 (clickHistory this)) this
  else this.

(** [addClick], up to its final [this.save()], which the caller's store
    performs (see [Store.save]). *)
Definition addClick (now : Date) (clickData : ClickData) (this : Url) : Url :=
  addClick_trim (addClick_push now clickData this).

(** A document as [new Url] leaves the counters: no click yet. *)
Definition fresh (u : Url) : Prop :=
  clicks u = 0 /\ clickHistory u = [].

(** The document after the clicks [cs], oldest first, each served at its own
    instant. *)
Definition addClicks (cs : list (Date * ClickData)) (u : Url) : Url :=
  fold_left (fun acc c => addClick (fst c) (snd c) acc) cs u.

(** The entries a run of clicks pushes, oldest first. *)
Definition entries (cs : list (Date * ClickData)) : list Click :=
  map (fun c => click_entry (fst c) (snd c)) cs.

(** The run of [addClicks] with the trimming statement left out. *)
Definition addClicks_untrimmed (cs : list (Date * ClickData)) (u : Url) : Url :=
  fold_left (fun acc c => addClick_push (fst c) (snd c) acc) cs u.

End UrlModel.

(* ================================================================== *)
(** ** The process state a request runs against *)
(* ================================================================== *)

(** The two random sources.  [random] lists the successive results of
    [Math.random()], [entropy] the successive bytes [crypto.randomBytes]
    hands out; [drawn] and [consumed] count what was used so far. *)
Record Rng := {
  random : nat -> JS.double01;
  drawn : nat;
  entropy : nat -> Byte.byte;
  consumed : nat
}.

(** The [urls] collection, the log of the short codes looked up with
    [Url.findOne({ shortCode })], the next [_id] the driver assigns. *)
Record World := {
  urls : list Url;
  findOne_log : list string;
  next_id : ObjectId;
  rng : Rng
}.

Definition set_rng (g : Rng) (w : World) : World :=
  {| urls := urls w; findOne_log := findOne_log w; next_id := next_id w; rng := g |}.

Definition set_urls (l : list Url) (w : World) : World :=
  {| urls := l; findOne_log := findOne_log w; next_id := next_id w; rng := rng w |}.

Definition log_findOne (code : string) (w : World) : World :=
  {| urls := urls w; findOne_log := findOne_log w ++ [code];
     next_id := next_id w; rng := rng w |}.

Definition bump_id (w : World) : World :=
  {| urls := urls w; findOne_log := findOne_log w;
     next_id := N.succ (next_id w); rng := rng w |}.

(** What a handler sends. *)
Inductive Response :=
| json (status : Z) (success : bool) (message : string) (data : option Url)
| redirect (status : Z) (location : string).

Definition status_of (r : Response) : Z :=
  match r with
  | json s _ _ _ => s
  | redirect s _ => s
  end.

(** A step of a handler: it yields a value, or leaves the handler with a
    response ([return res...]), or throws, or the model's loop budget ran
    out. *)
Inductive Result (A : Type) :=
| Val (a : A)
| Return (r : Response)
| Throw
| NoFuel.

Arguments Val {A} a.
Arguments Return {A} r.
Arguments Throw {A}.
Arguments NoFuel {A}.

Definition M (A : Type) : Type := World -> Result A * World.

Definition ret {A} (a : A) : M A := fun w => (Val a, w).

Definition bind {A B} (m : M A) (f : A -> M B) : M B :=
  fun w =>
    match m w with
    | (Val a, w') => f a w'
    | (Return r, w') => (Return r, w')
    | (Throw, w') => (Throw, w')
    | (NoFuel, w') => (NoFuel, w')
    end.

Definition respond {A} (r : Response) : M A := fun w => (Return r, w).
Definition throw {A} : M A := fun w => (Throw, w).
Definition out_of_fuel {A} : M A := fun w => (NoFuel, w).

Notation "x <- m ;; k" := (bind m (fun x => k))
  (at level 61, m at next level, right associativity).
Notation "m ;;; k" := (bind m (fun _ => k))
  (at level 61, right associativity).

(** [try { body } catch (error) { res.status(500).json(fallback) }]: the
    response of a handler, [None] only when the loop budget ran out. *)
Definition try_catch (body : M Response) (fallback : Response)
  : World -> option Response * World :=
  fun w =>
    match body w with
    | (Val r, w') => (Some r, w')
    | (Return r, w') => (Some r, w')
    | (Throw, w') => (Some fallback, w')
    | (NoFuel, w') => (None, w')
    end.

(* ================================================================== *)
(** ** server/utils/urlUtils.js *)
(* ================================================================== *)

Module UrlUtils.

Definition chars : string :=
  "ABCDEFGHIJKLMNOPQRSTUVWXYZabcdefghijklmnopqrstuvwxyz0123456789".

(** [Math.random()]: the next double of the source. *)
Definition Math_random : M JS.double01 :=
  fun w =>
    let g := rng w in
    (Val (random g (drawn g)),
     set_rng {| random := random g; drawn := S (drawn g);
                entropy := entropy g; consumed := consumed g |} w).

(** [crypto.randomBytes(n)]: the next [n] bytes of the source. *)
Definition crypto_randomBytes (n : nat) : M (list Byte.byte) :=
  fun w =>
    let g := rng w in
    (Val (map (entropy g) (seq (consumed g) n)),
     set_rng {| random := random g; drawn := drawn g;
                entropy := entropy g; consumed := (consumed g + n)%nat |} w).

(** The body of the [for] loop of [generateShortCode], [n] iterations left. *)
Fixpoint generateShortCode_loop (n : nat) (result : string) : M string :=
  match n with
  | O => ret result
  | S n' =>
      r <- Math_random ;;
      generateShortCode_loop n'
        (result ++ JS.charAt chars
           (JS.Math_floor (JS.fmul_int r (Z.of_nat (String.length chars)))))%string
  end.

Definition generateShortCode (length : nat) : M string :=
  generateShortCode_loop length "".

(** The body of the [for] loop of [generateSecureShortCode] at index [i],
    [n] iterations left. *)
Fixpoint generateSecureShortCode_loop
  (bytes : list Byte.byte) (n i : nat) (result : string) : string :=
  match n with
  | O => result
  | S n' =>
      let picked :=
        match nth_error bytes i with
        | Some b =>
            JS.index chars (Z.of_N (Byte.to_N b) mod Z.of_nat (String.length chars))
        | None => None
        end in
      generateSecureShortCode_loop bytes n' (S i) (JS.append_indexed result picked)
  end.

Definition generateSecureShortCode (length : nat) : M string :=
  bytes <- crypto_randomBytes length ;;
  ret (generateSecureShortCode_loop bytes length 0 "").

(** The default argument [length = 6]. *)
Definition default_length : nat := 6.

(** The alphabet [[A-Za-z0-9]]. *)
Definition alnum (c : ascii) : bool :=
  let n := nat_of_ascii c in
  ((65 <=? n) && (n <=? 90) || (97 <=? n) && (n <=? 122)
   || (48 <=? n) && (n <=? 57))%nat.

Fixpoint all_chars (p : ascii -> bool) (s : string) : bool :=
  match s with
  | EmptyString => true
  | String c s' => p c && all_chars p s'
  end.

(** [isValidUrl], over the WHATWG parser [new URL(s)]: [parse s] is the
    parsed URL's [protocol], [None] when the constructor throws. *)
Definition isValidUrl (parse : string -> option string) (s : string) : bool :=
  match parse s with
  | Some protocol => (protocol =? "http:")%string || (protocol =? "https:")%string
  | None => false
  end.

(** [Math.random()] returns doubles of the half-open unit interval. *)
Definition random_in_unit (w : World) : Prop :=
  forall i, JS.in_unit (random (rng w) i).

End UrlUtils.

(* ================================================================== *)
(** ** The Mongoose model's store operations *)
(* ================================================================== *)

Module Store.

(** The class [[a-zA-Z0-9_-]] of the [match] validator. *)
Definition code_char (c : ascii) : bool :=
  UrlUtils.alnum c || (nat_of_ascii c =? 95)%nat || (nat_of_ascii c =? 45)%nat.

(** [/^[a-zA-Z0-9_-]+$/.test(s)]. *)
Definition code_pattern (s : string) : bool :=
  negb (s =? "")%string && UrlUtils.all_chars code_char s.

Definition within (max : nat) (s : option string) : bool :=
  match s with
  | Some v => (String.length v <=? max)%nat
  | None => true
  end.

(** The schema's validators, run by [save] on a new document. *)
Definition validate (u : Url) : bool :=
  negb (originalUrl u =? "")%string
  && (String.length (originalUrl u) <=? 2048)%nat
  && negb (shortCode u =? "")%string
  && (3 <=? String.length (shortCode u))%nat
  && (String.length (shortCode u) <=? 20)%nat
  && code_pattern (shortCode u)
  && within 200 (title u)
  && within 500 (description u)
  && forallb (fun t => (String.length t <=? 50)%nat) (tags u).

Definition has_shortCode (code : string) (u : Url) : bool :=
  (shortCode u =? code)%string.

(** [Url.findOne({ shortCode })]. *)
Definition findOne_shortCode (code : string) : M (option Url) :=
  fun w => (Val (find (has_shortCode code) (urls w)), log_findOne code w).

(** The fields [new Url(urlData)] receives. *)
Record UrlData := {
  d_originalUrl : string;
  d_shortCode : string;
  d_customCode : bool;
  d_userId : option ObjectId;
  d_title : option string;
  d_description : option string;
  d_expiresAt : option Date;
  d_maxClicks : option Z;
  d_tags : list string
}.

(** [new Url(urlData)]: setters ([trim]) and defaults applied, a fresh
    [_id] assigned. *)
Definition construct (now : Date) (d : UrlData) : M Url :=
  fun w =>
    (Val {| _id := next_id w;
            originalUrl := JS.trim (d_originalUrl d);
            shortCode := JS.trim (d_shortCode d);
            customCode := d_customCode d;
            userId := d_userId d;
            clicks := 0;
            maxClicks := d_maxClicks d;
            expiresAt := d_expiresAt d;
            isActive := true;
            title := option_map JS.trim (d_title d);
            description := option_map JS.trim (d_description d);
            tags := map JS.trim (d_tags d);
            clickHistory := [];
            createdAt := now;
            updatedAt := now |},
     bump_id w).

(** [url.save()] on a new document: the pre-save hook, the validators, then
    the insert, which the unique index on [shortCode] can refuse. *)
Definition save_new (now : Date) (u : Url) : M Url :=
  fun w =>
    let u := UrlModel.set_updatedAt now u in
    if negb (validate u) then (Throw, w)
    else if existsb (has_shortCode (shortCode u)) (urls w) then (Throw, w)
    else (Val u, set_urls (urls w ++ [u]) w).

(** [this.save()] on a document read from the store: the pre-save hook, then
    the document replaces the stored one of the same [_id]. *)
Definition save (now : Date) (u : Url) : M Url :=
  fun w =>
    let u := UrlModel.set_updatedAt now u in
    (Val u,
     set_urls (map (fun d => if (_id d =? _id u)%N then u else d) (urls w)) w).

(** The filter [{ _id: id, userId: caller }]. *)
Definition owned (caller : ObjectId) (u : Url) : bool :=
  match userId u with
  | Some o => (o =? caller)%N
  | None => false
  end.

(** A record of another owner, or of none. *)
Definition foreign (caller : ObjectId) (u : Url) : bool :=
  negb (owned caller u).

Definition by_id_and_owner (id caller : ObjectId) (u : Url) : bool :=
  (_id u =? id)%N && owned caller u.

(** The filter [{ _id: { $in: urlIds }, userId: caller }]. *)
Definition in_ids_and_owner (urlIds : list ObjectId) (caller : ObjectId) (u : Url) : bool :=
  existsb (N.eqb (_id u)) urlIds && owned caller u.

Fixpoint remove_first (p : Url -> bool) (l : list Url) : list Url :=
  match l with
  | [] => []
  | u :: l' => if p u then l' else u :: remove_first p l'
  end.

(** [Url.findOneAndDelete(filter)]: the first match, removed. *)
Definition findOneAndDelete (p : Url -> bool) : M (option Url) :=
  fun w => (Val (find p (urls w)), set_urls (remove_first p (urls w)) w).

(** [Url.deleteMany(filter)]: every match removed; the result is
    [deletedCount]. *)
Definition deleteMany (p : Url -> bool) : M nat :=
  fun w =>
    (Val (List.length (filter p (urls w))),
     set_urls (filter (fun u => negb (p u)) (urls w)) w).

End Store.

(* ================================================================== *)
(** ** server/routes/urls.js and the redirect router *)
(* ================================================================== *)

Module Routes.

(** The body of [POST /shorten] and the user [optionalAuth] attached.  A
    missing [originalUrl] reaches the validators as the empty string. *)
Record ShortenRequest := {
  req_user : option ObjectId;
  b_originalUrl : string;
  b_customCode : option string;
  b_title : option string;
  b_description : option string;
  b_expiresAt : option Date;
  b_maxClicks : option Z;
  b_tags : option (list string)
}.

(** [GET /:shortCode]: the parameter, the peer addresses, the headers. *)
Record RedirectRequest := {
  p_shortCode : string;
  req_ip : option string;
  req_remoteAddress : option string;
  req_get : string -> option string
}.

Definition maxAttempts : Z := 10.

(** The answer when the attempt counter reaches [maxAttempts]. *)
Definition generation_exhausted : Response :=
  json 500 false "Unable to generate unique short code. Please try again." None.

Definition optional {A} (check : A -> bool) (field : option A) : bool :=
  match field with
  | Some v => check v
  | None => true
  end.

Section Shorten.

(** The two library predicates on the submitted URL: validator.js's [isURL]
    with the protocols http and https, and the protocol the WHATWG parser
    reads ([None] when [new URL] throws). *)
Variable isURL : string -> bool.
Variable URL_protocol : string -> option string.

(** [validationResult(req).isEmpty()] for the chains of [POST /shorten]. *)
Definition validationResult (req : ShortenRequest) : bool :=
  isURL (b_originalUrl req)
  && (String.length (b_originalUrl req) <=? 2048)%nat
  && optional (fun c => (3 <=? String.length c)%nat
                        && (String.length c <=? 20)%nat
                        && Store.code_pattern c) (b_customCode req)
  && optional (fun t => (String.length t <=? 200)%nat) (b_title req)
  && optional (fun d => (String.length d <=? 500)%nat) (b_description req)
  && optional (fun m => 1 <=? m) (b_maxClicks req).

(** The [do ... while] loop that draws a short code; [attempts] is the
    counter before the iteration. *)
Fixpoint generate_loop (fuel : nat) (attempts : Z) : M string :=
  match fuel with
  | O => out_of_fuel
  | S fuel' =>
      shortCode <- UrlUtils.generateShortCode UrlUtils.default_length ;;
      let attempts := attempts + 1 in
      if maxAttempts <=? attempts
      then respond generation_exhausted
      else
        existing <- Store.findOne_shortCode shortCode ;;
        match existing with
        | Some _ => generate_loop fuel' attempts
        | None => ret shortCode
        end
  end.

Definition pick_shortCode (fuel : nat) (customCode : option string) : M string :=
  match customCode with
  | Some c =>
      if negb (JS.truthy_str customCode) then generate_loop fuel 0
      else
        existingUrl <- Store.findOne_shortCode c ;;
        match existingUrl with
        | Some _ => respond (json 400 false "Custom code is already taken" None)
        | None => ret c
        end
  | None => generate_loop fuel 0
  end.

Definition shorten_body (fuel : nat) (now : Date) (req : ShortenRequest) : M Response :=
  if negb (validationResult req)
  then respond (json 400 false "Validation failed" None)
  else if negb (UrlUtils.isValidUrl URL_protocol (b_originalUrl req))
  then respond (json 400 false "Invalid URL format" None)
  else
    shortCode <- pick_shortCode fuel (b_customCode req) ;;
    url <- Store.construct now
             {| Store.d_originalUrl := b_originalUrl req;
                Store.d_shortCode := shortCode;
                Store.d_customCode := JS.truthy_str (b_customCode req);
                Store.d_userId := req_user req;
                Store.d_title := b_title req;
                Store.d_description := b_description req;
                Store.d_expiresAt := b_expiresAt req;
                Store.d_maxClicks := b_maxClicks req;
                Store.d_tags := match b_tags req with Some t => t | None => [] end |} ;;
    url <- Store.save_new now url ;;
    ret (json 201 true "URL shortened successfully" (Some url)).

(** [POST /shorten]. *)
Definition shorten_with (fuel : nat) (now : Date) (req : ShortenRequest)
  : World -> option Response * World :=
  try_catch (shorten_body fuel now req)
            (json 500 false "Server error during URL shortening" None).

Definition shorten : Date -> ShortenRequest -> World -> option Response * World :=
  shorten_with (Z.to_nat maxAttempts).

End Shorten.

(** The click data the redirect handler collects. *)
Definition clickData_of (req : RedirectRequest) : ClickData :=
  {| cd_ip := JS.or_opt (req_ip req) (req_remoteAddress req);
     cd_userAgent := Some (JS.or_else (req_get req "User-Agent") "Unknown");
     cd_referer := Some (JS.or_else (req_get req "Referer") "Direct");
     cd_country := Some (JS.or_else (req_get req "CF-IPCountry") "Unknown");
     cd_city := Some (JS.or_else (req_get req "CF-IPCity") "Unknown") |}.

(** The reason sent with 410. *)
Definition gone_message (now : Date) (url : Url) : string :=
  let message := "This short URL is no longer active" in
  if UrlModel.isExpired now url then "This short URL has expired"
  else if UrlModel.hasReachedMaxClicks url
  then "This short URL has reached its maximum click limit"
  else if negb (isActive url) then "This short URL has been deactivated"
  else message.

Definition redirect_body (now : Date) (req : RedirectRequest) : M Response :=
  url <- Store.findOne_shortCode (p_shortCode req) ;;
  match url with
  | None => respond (json 404 false "Short URL not found" None)
  | Some url =>
      if negb (UrlModel.isAccessible now url)
      then respond (json 410 false (gone_message now url) None)
      else
        url <- Store.save now (UrlModel.addClick now (clickData_of req) url) ;;
        ret (redirect 302 (originalUrl url))
  end.

(** [GET /:shortCode]. *)
Definition get_shortCode (now : Date) (req : RedirectRequest)
  : World -> option Response * World :=
  try_catch (redirect_body now req)
            (json 500 false "Server error during redirection" None).

(** [DELETE /:id], for the user [auth] attached. *)
Definition delete_body (caller id : ObjectId) : M Response :=
  url <- Store.findOneAndDelete (Store.by_id_and_owner id caller) ;;
  match url with
  | None => respond (json 404 false "URL not found" None)
  | Some _ => ret (json 200 true "URL deleted successfully" None)
  end.

Definition delete_id (caller id : ObjectId) : World -> option Response * World :=
  try_catch (delete_body caller id)
            (json 500 false "Server error during URL deletion" None).

(** [DELETE /bulk/delete]; [isArray({ min: 1 })] refuses the empty list. *)
Definition bulk_delete_body (caller : ObjectId) (urlIds : list ObjectId) : M Response :=
  if (List.length urlIds <? 1)%nat
  then respond (json 400 false "Validation failed" None)
  else
    deletedCount <- Store.deleteMany (Store.in_ids_and_owner urlIds caller) ;;
    ret (json 200 true (JS.decimal deletedCount ++ " URLs deleted successfully")%string None).

Definition bulk_delete (caller : ObjectId) (urlIds : list ObjectId)
  : World -> option Response * World :=
  try_catch (bulk_delete_body caller urlIds)
            (json 500 false "Server error during bulk deletion" None).

End Routes.

(* ================================================================== *)
(** ** Concrete worlds and requests used to run the model *)
(* ================================================================== *)

Module Samples.

Definition zero01 : JS.double01 := {| JS.mant := 0; JS.shift := 53 |}.
Definition half01 : JS.double01 := {| JS.mant := 2 ^ 52; JS.shift := 53 |}.
(** The largest double below 1. *)
Definition top01 : JS.double01 := {| JS.mant := 2 ^ 53 - 1; JS.shift := 53 |}.

(** A source whose every draw is 0: every candidate is [AAAAAA]. *)
Definition rng_zero : Rng :=
  {| random := fun _ => zero01; drawn := 0;
     entropy := fun _ => Byte.x00; consumed := 0 |}.

(** A source whose first 54 draws are 0 and whose later draws are 1/2: nine
    candidates [AAAAAA], then [ffffff]. *)
Definition rng_nine_then_fresh : Rng :=
  {| random := fun i => if (i <? 54)%nat then zero01 else half01; drawn := 0;
     entropy := fun _ => Byte.xff; consumed := 0 |}.

Definition sample_isURL (s : string) : bool :=
  (String.prefix "http://" s || String.prefix "https://" s)
  && (JS.trim s =? s)%string.

Definition sample_protocol (s : string) : option string :=
  if String.prefix "https://" s then Some "https:"
  else if String.prefix "http://" s then Some "http:"
  else None.

Definition long_url : string := "https://example.com/a/very/long/path".

Definition plain_request : Routes.ShortenRequest :=
  {| Routes.req_user := None;
     Routes.b_originalUrl := long_url;
     Routes.b_customCode := None;
     Routes.b_title := None;
     Routes.b_description := None;
     Routes.b_expiresAt := None;
     Routes.b_maxClicks := None;
     Routes.b_tags := None |}.

(** The same request with an expiry at instant 1000. *)
Definition expiring_request : Routes.ShortenRequest :=
  {| Routes.req_user := None;
     Routes.b_originalUrl := long_url;
     Routes.b_customCode := None;
     Routes.b_title := None;
     Routes.b_description := None;
     Routes.b_expiresAt := Some 1000;
     Routes.b_maxClicks := None;
     Routes.b_tags := None |}.

Definition custom_request (code : string) : Routes.ShortenRequest :=
  {| Routes.req_user := None;
     Routes.b_originalUrl := long_url;
     Routes.b_customCode := Some code;
     Routes.b_title := None;
     Routes.b_description := None;
     Routes.b_expiresAt := None;
     Routes.b_maxClicks := None;
     Routes.b_tags := None |}.

Definition visit (code : string) : Routes.RedirectRequest :=
  {| Routes.p_shortCode := code;
     Routes.req_ip := Some "203.0.113.7";
     Routes.req_remoteAddress := None;
     Routes.req_get := fun _ => None |}.

Definition no_click : ClickData :=
  {| cd_ip := None; cd_userAgent := None; cd_referer := None;
     cd_country := None; cd_city := None |}.

(** The clicks served at the instants 1, 2, ..., [n]. *)
Definition clicks_at (n : nat) : list (Date * ClickData) :=
  map (fun i => (Z.of_nat i, no_click)) (seq 1 n).

Definition doc (id : ObjectId) (code : string) (owner : option ObjectId) : Url :=
  {| _id := id; originalUrl := long_url; shortCode := code; customCode := false;
     userId := owner; clicks := 0; maxClicks := None; expiresAt := None;
     isActive := true; title := None; description := None; tags := [];
     clickHistory := []; createdAt := 0; updatedAt := 0 |}.

Definition limited (n : Z) : Url :=
  {| _id := 1%N; originalUrl := long_url; shortCode := "abc123"; customCode := false;
     userId := None; clicks := 0; maxClicks := Some n; expiresAt := None;
     isActive := true; title := None; description := None; tags := [];
     clickHistory := []; createdAt := 0; updatedAt := 0 |}.

Definition expired_doc (active : bool) (n : Z) (limit : option Z) : Url :=
  {| _id := 1%N; originalUrl := long_url; shortCode := "abc123"; customCode := false;
     userId := None; clicks := n; maxClicks := limit; expiresAt := Some 1000;
     isActive := active; title := None; description := None; tags := [];
     clickHistory := []; createdAt := 0; updatedAt := 0 |}.

Definition empty_world : World :=
  {| urls := []; findOne_log := []; next_id := 1%N; rng := rng_zero |}.

(** One stored document whose code is [AAAAAA]; nine colliding candidates,
    then a free one. *)
Definition crowded_world : World :=
  {| urls := [doc 1%N "AAAAAA" None]; findOne_log := []; next_id := 2%N;
     rng := rng_nine_then_fresh |}.

(** [crowded_world] once nine candidates were drawn. *)
Definition crowded_world_after_nine : World :=
  set_rng {| random := random rng_nine_then_fresh; drawn := 54;
             entropy := entropy rng_nine_then_fresh; consumed := 0 |}
          crowded_world.

(** Two users' documents. *)
Definition shared_world : World :=
  {| urls := [doc 1%N "alice1" (Some 10%N); doc 2%N "bob002" (Some 20%N);
              doc 3%N "anon03" None];
     findOne_log := []; next_id := 4%N; rng := rng_zero |}.

End Samples.

(* ================================================================== *)
(** ** More of server/models/Url.js and server/utils/urlUtils.js *)
(* ================================================================== *)

Module UrlVirtuals.

(** The virtual [shortUrl]; the argument is [process.env.DEFAULT_DOMAIN]. *)
Definition shortUrl (DEFAULT_DOMAIN : option string) (this : Url) : string :=
  let domain := JS.or_else DEFAULT_DOMAIN "short.ly" in
  ("https://" ++ domain ++ "/" ++ shortCode this)%string.

End UrlVirtuals.

Module Suspicious.

(** Case folding of the [i] flag on the characters a byte string holds: the
    ASCII letters. *)
Definition lower (c : ascii) : ascii :=
  let n := nat_of_ascii c in
  if ((65 <=? n) && (n <=? 90))%nat then ascii_of_nat (n + 32) else c.

Definition eq_ci (a b : ascii) : bool := Ascii.eqb (lower a) (lower b).

(** The literal [pat] read at the start of [s], case-insensitively. *)
Fixpoint matches_at (pat s : string) : bool :=
  match pat, s with
  | EmptyString, _ => true
  | String p pat', String c s' => eq_ci p c && matches_at pat' s'
  | String _ _, EmptyString => false
  end.

(** [/pat/i.test(s)] for a pattern that is a literal. *)
Fixpoint test (pat s : string) : bool :=
  matches_at pat s
  || match s with
     | EmptyString => false
     | String _ s' => test pat s'
     end.

(** The literals of [suspiciousPatterns], each dot escaped in the source. *)
Definition suspiciousPatterns : list string :=
  ["bit.ly"; "tinyurl.com"; "short.link"; "t.co"; "goo.gl"; "ow.ly";
   "is.gd"; "v.gd"; "short.ly"].

Definition isSuspiciousUrl (url : string) : bool :=
  existsb (fun pattern => test pattern url) suspiciousPatterns.

End Suspicious.

(* ================================================================== *)
(** ** Invariants of the collection *)
(* ================================================================== *)

Module Invariants.

(** What [addClick] keeps true of a document that started fresh. *)
Definition record_ok (u : Url) : Prop :=
  0 <= clicks u
  /\ (List.length (clickHistory u) <= 100)%nat
  /\ Z.of_nat (List.length (clickHistory u)) <= clicks u.

Definition unique_codes (w : World) : Prop := NoDup (map shortCode (urls w)).
Definition unique_ids (w : World) : Prop := NoDup (map _id (urls w)).
Definition ids_below (w : World) : Prop :=
  Forall (fun u => (_id u < next_id w)%N) (urls w).

(** The unique index on [shortCode], the primary key, the id counter ahead of
    every stored id, and sound counters. *)
Definition wf (w : World) : Prop :=
  unique_codes w /\ unique_ids w /\ ids_below w /\ Forall record_ok (urls w).

End Invariants.

(* ================================================================== *)
(** ** The candidates the generation loop draws *)
(* ================================================================== *)

Module Candidates.

(** The character one iteration of [generateShortCode] appends for the
    draw [r]. *)
Definition pick (r : JS.double01) : string :=
  JS.charAt UrlUtils.chars
    (JS.Math_floor (JS.fmul_int r (Z.of_nat (String.length UrlUtils.chars)))).

(** [result] after [n] iterations that read the source from [start] on. *)
Fixpoint code_from (random : nat -> JS.double01) (start n : nat) (result : string)
  : string :=
  match n with
  | O => result
  | S n' => code_from random (S start) n' (result ++ pick (random start))%string
  end.

(** The world once [n] more numbers were drawn. *)
Definition advance (n : nat) (w : World) : World :=
  set_rng {| random := random (rng w); drawn := (n + drawn (rng w))%nat;
             entropy := entropy (rng w); consumed := consumed (rng w) |} w.

(** The [k]th code (from 0) a request served in [w] would draw. *)
Definition candidate (w : World) (k : nat) : string :=
  code_from (random (rng w)) (6 * k + drawn (rng w)) UrlUtils.default_length "".

Definition taken (w : World) (k : nat) : bool :=
  existsb (Store.has_shortCode (candidate w k)) (urls w).

(** The first index in [k, k + m) whose candidate is free. *)
Fixpoint scan (w : World) (k m : nat) : option nat :=
  match m with
  | O => None
  | S m' => if taken w k then scan w (S k) m' else Some k
  end.

(** The world of a request that started in [w], once [k] candidates were
    drawn and looked up. *)
Definition at_iter (w : World) (k : nat) : World :=
  {| urls := urls w;
     findOne_log := findOne_log w ++ map (candidate w) (seq 0 k);
     next_id := next_id w;
     rng := {| random := random (rng w); drawn := (6 * k + drawn (rng w))%nat;
               entropy := entropy (rng w); consumed := consumed (rng w) |} |}.

End Candidates.

(* ================================================================== *)
(** ** More routes: runs of visits, the preview, the update, the overview *)
(* ================================================================== *)

Module MoreRoutes.
Import Routes.

(** The document [POST /shorten] saves under [code] with the id [id]:
    [new Url(urlData)] after the pre-save hook. *)
Definition created (now : Date) (req : ShortenRequest) (code : string)
  (id : ObjectId) : Url :=
  {| _id := id;
     originalUrl := JS.trim (b_originalUrl req);
     shortCode := JS.trim code;
     customCode := JS.truthy_str (b_customCode req);
     userId := req_user req;
     clicks := 0;
     maxClicks := b_maxClicks req;
     expiresAt := b_expiresAt req;
     isActive := true;
     title := option_map JS.trim (b_title req);
     description := option_map JS.trim (b_description req);
     tags := map JS.trim (match b_tags req with Some t => t | None => [] end);
     clickHistory := [];
     createdAt := now;
     updatedAt := now |}.

(** What [POST /shorten] does once a code was picked in the world [wa]. *)
Definition save_created (now : Date) (req : ShortenRequest) (code : string)
  (wa : World) : option Response * World :=
  let doc := created now req code (next_id wa) in
  if Store.validate doc
     && negb (existsb (Store.has_shortCode (shortCode doc)) (urls wa))
  then (Some (json 201 true "URL shortened successfully" (Some doc)),
        set_urls (urls wa ++ [doc]) (bump_id wa))
  else (Some (json 500 false "Server error during URL shortening" None),
        bump_id wa).

(** The document a served visit saves: the click added, the pre-save hook
    run. *)
Definition visited (now : Date) (req : RedirectRequest) (u : Url) : Url :=
  UrlModel.set_updatedAt now (UrlModel.addClick now (clickData_of req) u).

(** The collection after [this.save()] of [u']: it replaces the stored
    document of the same [_id]. *)
Definition replace_doc (u' : Url) (l : list Url) : list Url :=
  map (fun d => if (_id d =? _id u')%N then u' else d) l.

(** Successive [GET /:shortCode] requests, each at its own instant. *)
Fixpoint visits (rs : list (Date * RedirectRequest)) (w : World)
  : list (option Response) * World :=
  match rs with
  | [] => ([], w)
  | (now, req) :: rs' =>
      let (resp, w1) := get_shortCode now req w in
      let (resps, w2) := visits rs' w1 in
      (resp :: resps, w2)
  end.

(** The [data] of [GET /:shortCode/info]. *)
Record UrlInfo := {
  i_originalUrl : string;
  i_shortCode : string;
  i_shortUrl : string;
  i_title : option string;
  i_description : option string;
  i_clicks : Z;
  i_isActive : bool;
  i_isAccessible : bool;
  i_expiresAt : option Date;
  i_maxClicks : option Z;
  i_createdAt : Date
}.

Inductive InfoResponse :=
| info_error (status : Z) (message : string)
| info_ok (data : UrlInfo).

(** [GET /:shortCode/info]. *)
Definition get_info (DEFAULT_DOMAIN : option string) (now : Date) (code : string)
  : World -> InfoResponse * World :=
  fun w =>
    match Store.findOne_shortCode code w with
    | (Val None, w') => (info_error 404 "Short URL not found", w')
    | (Val (Some url), w') =>
        (info_ok {| i_originalUrl := originalUrl url;
                    i_shortCode := shortCode url;
                    i_shortUrl := UrlVirtuals.shortUrl DEFAULT_DOMAIN url;
                    i_title := title url;
                    i_description := description url;
                    i_clicks := clicks url;
                    i_isActive := isActive url;
                    i_isAccessible := UrlModel.isAccessible now url;
                    i_expiresAt := expiresAt url;
                    i_maxClicks := maxClicks url;
                    i_createdAt := createdAt url |}, w')
    | (_, w') => (info_error 500 "Server error while retrieving URL info", w')
    end.

(** The body of [PUT /:id]; an absent field is [undefined]. *)
Record UpdateRequest := {
  u_title : option string;
  u_description : option string;
  u_expiresAt : option Date;
  u_maxClicks : option Z;
  u_tags : option (list string);
  u_isActive : option bool
}.

(** [validationResult(req).isEmpty()] for the chains of [PUT /:id]. *)
Definition update_validation (b : UpdateRequest) : bool :=
  optional (fun t => (String.length t <=? 200)%nat) (u_title b)
  && optional (fun d => (String.length d <=? 500)%nat) (u_description b)
  && optional (fun m => 1 <=? m) (u_maxClicks b).

(** The document after [updateData] was applied: only the six fields the
    handler copies can change, and the timestamp. *)
Definition apply_update (now : Date) (b : UpdateRequest) (u : Url) : Url :=
  {| _id := _id u; originalUrl := originalUrl u; shortCode := shortCode u;
     customCode := customCode u; userId := userId u; clicks := clicks u;
     maxClicks := match u_maxClicks b with
                  | Some m => Some m
                  | None => maxClicks u
                  end;
     expiresAt := match u_expiresAt b with
                  | Some e => Some e
                  | None => expiresAt u
                  end;
     isActive := match u_isActive b with
                 | Some a => a
                 | None => isActive u
                 end;
     title := match u_title b with
              | Some t => Some (JS.trim t)
              | None => title u
              end;
     description := match u_description b with
                    | Some d => Some (JS.trim d)
                    | None => description u
                    end;
     tags := match u_tags b with
             | Some t => map JS.trim t
             | None => tags u
             end;
     clickHistory := clickHistory u; createdAt := createdAt u;
     updatedAt := now |}.

Definition has_id (id : ObjectId) (u : Url) : bool := (_id u =? id)%N.

Fixpoint update_first (p : Url -> bool) (f : Url -> Url) (l : list Url) : list Url :=
  match l with
  | [] => []
  | u :: l' => if p u then f u :: l' else u :: update_first p f l'
  end.

Section Update.

(** Whether Mongoose's update validators accept a new [tags] array. *)
Variable tags_accepted : list string -> bool.

(** [Url.findOne({ _id: id, userId: caller })]. *)
Definition findOne_owned (id caller : ObjectId) : M (option Url) :=
  fun w => (Val (find (Store.by_id_and_owner id caller) (urls w)), w).

(** [Url.findByIdAndUpdate(id, updateData, { new: true, runValidators: true })]:
    the validators run first; the first document with that [_id] is updated
    (setters applied, [updatedAt] stamped by the schema's timestamps) and
    returned.  The filter is the id alone: the owner was checked before. *)
Definition findByIdAndUpdate (now : Date) (id : ObjectId) (b : UpdateRequest)
  : M (option Url) :=
  fun w =>
    if negb (optional tags_accepted (u_tags b)) then (Throw, w)
    else (Val (option_map (apply_update now b) (find (has_id id) (urls w))),
          set_urls (update_first (has_id id) (apply_update now b) (urls w)) w).

Definition update_body (now : Date) (caller id : ObjectId) (b : UpdateRequest)
  : M Response :=
  if negb (update_validation b)
  then respond (json 400 false "Validation failed" None)
  else
    url <- findOne_owned id caller ;;
    match url with
    | None => respond (json 404 false "URL not found" None)
    | Some _ =>
        updatedUrl <- findByIdAndUpdate now id b ;;
        ret (json 200 true "URL updated successfully" updatedUrl)
    end.

(** [PUT /:id], for the user [auth] attached. *)
Definition update_id (now : Date) (caller id : ObjectId) (b : UpdateRequest)
  : World -> option Response * World :=
  try_catch (update_body now caller id b)
            (json 500 false "Server error during URL update" None).

End Update.

(** The [overview] object of [GET /overview] (the stats router). *)
Record Overview := {
  totalUrls : nat;
  activeUrls : nat;
  expiredUrls : nat;
  totalClicks : Z;
  recentClicks : nat
}.

Section Stats.

(** [d.setDate(d.getDate() - 30)]: the instant thirty calendar days before
    [d] in the server's time zone. *)
Variable thirty_days_before : Date -> Date.

Definition sum_clicks (l : list Url) : Z :=
  fold_right (fun u acc => clicks u + acc) 0 l.

Definition overview (now : Date) (userId : ObjectId) (w : World) : Overview :=
  let mine := filter (Store.owned userId) (urls w) in
  let thirtyDaysAgo := thirty_days_before now in
  {| totalUrls := List.length mine;
     activeUrls := List.length (filter isActive mine);
     expiredUrls :=
       List.length
         (filter (fun u => match expiresAt u with
                           | Some e => e <? now
                           | None => false
                           end) mine);
     totalClicks := sum_clicks mine;
     recentClicks :=
       List.length
         (filter (fun c => thirtyDaysAgo <=? timestamp c)
                 (flat_map clickHistory mine)) |}.

End Stats.

(** [GET /my-urls]: the query string.  [page] and [limit] are positive
    integers when present. *)
Record MyUrlsQuery := {
  q_page : option positive;
  q_limit : option positive;
  q_search : option string;
  q_sortBy : option string;
  q_sortOrder : option string
}.

Record Pagination := {
  currentPage : nat;
  totalPages : nat;
  totalUrls_listed : nat;
  hasNext : bool;
  hasPrev : bool
}.

Record MyUrls := {
  listed : list Url;
  pagination : Pagination
}.

(** [Math.ceil(a / b)] on non-negative integers, [b] positive. *)
Definition ceil_div (a b : nat) : nat := ((a + b - 1) / b)%nat.

Section MyUrls.

(** The store's answer to the four case-insensitive [$regex] tests joined by
    [$or], and its ordering of a result by a field and a direction
    ([true] for descending). *)
Variable matches_search : string -> Url -> bool.
Variable sort_docs : string -> bool -> list Url -> list Url.

(** [.select('-clickHistory')]: the document as listed, its click history
    left out. *)
Definition without_history (u : Url) : Url := UrlModel.set_clickHistory [] u.

Definition my_urls (caller : ObjectId) (q : MyUrlsQuery) (w : World) : MyUrls :=
  let page := match q_page q with Some p => Pos.to_nat p | None => 1%nat end in
  let limit := match q_limit q with Some l => Pos.to_nat l | None => 10%nat end in
  let sortBy := match q_sortBy q with Some f => f | None => "createdAt" end in
  let sortOrder := match q_sortOrder q with Some o => o | None => "desc" end in
  let query u :=
    Store.owned caller u
    && match q_search q with
       | Some s => if JS.truthy_str (q_search q) then matches_search s u else true
       | None => true
       end in
  let found := sort_docs sortBy (sortOrder =? "desc")%string (filter query (urls w)) in
  let total := List.length (filter query (urls w)) in
  {| listed := map without_history (firstn limit (skipn ((page - 1) * limit) found));
     pagination :=
       {| currentPage := page;
          totalPages := ceil_div total limit;
          totalUrls_listed := total;
          hasNext := (page * limit <? total)%nat;
          hasPrev := (1 <? page)%nat |} |}.

End MyUrls.

(** [url.clickHistory.sort((a, b) => new Date(b.timestamp) - new
    Date(a.timestamp))]: newest first; the sort is stable, so entries of one
    instant keep their order. *)
Fixpoint insert_newest_first (c : Click) (l : list Click) : list Click :=
  match l with
  | [] => [c]
  | y :: l' =>
      if timestamp c <? timestamp y then y :: insert_newest_first c l'
      else c :: y :: l'
  end.

(** [a] may stand before [b] in a newest-first list. *)
Definition not_older (a b : Click) : Prop := timestamp b <= timestamp a.

Definition sort_newest_first (l : list Click) : list Click :=
  fold_right insert_newest_first [] l.

(** The [recentClicks] of [GET /url/:urlId] (the stats router): [None] is
    the 404 answer for a record the caller does not own. *)
Definition url_recentClicks (caller urlId : ObjectId) (w : World)
  : option (list Click) :=
  match find (Store.by_id_and_owner urlId caller) (urls w) with
  | None => None
  | Some url => Some (firstn 50 (sort_newest_first (clickHistory url)))
  end.

End MoreRoutes.

Module MoreSamples.

Definition activity (n : Z) (when : list Date) (owner : ObjectId) : Url :=
  {| _id := 7%N; originalUrl := Samples.long_url; shortCode := "seen01";
     customCode := false; userId := Some owner; clicks := n; maxClicks := None;
     expiresAt := None; isActive := true; title := None; description := None;
     tags := [];
     clickHistory := map (fun t => UrlModel.click_entry t Samples.no_click) when;
     createdAt := 0; updatedAt := 0 |}.

(** Two records; the second has one click on a limit of three. *)
Definition limited_world : World :=
  {| urls := [Samples.doc 2%N "other1" None;
              UrlModel.set_clicks 1 (Samples.limited 3)];
     findOne_log := []; next_id := 5%N; rng := Samples.rng_zero |}.

Definition deactivate : MoreRoutes.UpdateRequest :=
  {| MoreRoutes.u_title := None; MoreRoutes.u_description := None;
     MoreRoutes.u_expiresAt := None; MoreRoutes.u_maxClicks := None;
     MoreRoutes.u_tags := None; MoreRoutes.u_isActive := Some false |}.

Definition seen_world : World :=
  {| urls := [activity 3 [10; 20; 30] 10%N; Samples.doc 2%N "bob002" (Some 20%N)];
     findOne_log := []; next_id := 8%N; rng := Samples.rng_zero |}.

End MoreSamples.

(* ================================================================== *)
(** ** Facts about the record model *)
(* ================================================================== *)

Module UrlFacts.
Import UrlModel.

Lemma slice_last_short {A} (n : nat) (l : list A) :
  (List.length l <= n)%nat -> JS.slice_last n l = l.
Proof.
  intros H. unfold JS.slice_last.
  replace (List.length l - n)%nat with 0%nat by lia. reflexivity.
Qed.

Lemma slice_last_length {A} (n : nat) (l : list A) :
  List.length (JS.slice_last n l) = Nat.min n (List.length l).
Proof. unfold JS.slice_last. rewrite length_skipn. lia. Qed.

(** Trimming before a push does not change what survives the next trim. *)
Lemma slice_last_push {A} (n : nat) (l : list A) (x : A) :
  (1 <= n)%nat ->
  JS.slice_last n (JS.slice_last n l ++ [x]) = JS.slice_last n (l ++ [x]).
Proof.
  intros Hn.
  destruct (Nat.le_gt_cases (List.length l) n) as [Hle | Hgt].
  - now rewrite (slice_last_short n l Hle).
  - unfold JS.slice_last at 1 3.
    rewrite !length_app, slice_last_length. cbn [List.length].
    replace (Nat.min n (List.length l) + 1 - n)%nat with 1%nat by lia.
    rewrite !skipn_app, slice_last_length.
    replace (1 - Nat.min n (List.length l))%nat with 0%nat by lia.
    replace (List.length l + 1 - n - List.length l)%nat with 0%nat by lia.
    unfold JS.slice_last. rewrite skipn_skipn.
    do 2 f_equal. lia.
Qed.

Lemma addClick_clicks now c u : clicks (addClick now c u) = clicks u + 1.
Proof.
  unfold addClick, addClick_trim.
  destruct (_ <? _)%nat; reflexivity.
Qed.

Lemma addClick_push_history now c u :
  clickHistory (addClick_push now c u) = clickHistory u ++ [click_entry now c].
Proof. reflexivity. Qed.

Lemma addClick_history now c u :
  clickHistory (addClick now c u)
  = JS.slice_last 100 (clickHistory u ++ [click_entry now c]).
Proof.
  unfold addClick, addClick_trim.
  destruct (Nat.ltb_spec 100 (List.length (clickHistory (addClick_push now c u))))
    as [Hlt | Hge].
  - reflexivity.
  - rewrite slice_last_short; [reflexivity | exact Hge].
Qed.

(** [addClick] touches the counter, the history and nothing else. *)
Lemma addClick_frame now c u :
  _id (addClick now c u) = _id u
  /\ originalUrl (addClick now c u) = originalUrl u
  /\ shortCode (addClick now c u) = shortCode u
  /\ userId (addClick now c u) = userId u
  /\ maxClicks (addClick now c u) = maxClicks u
  /\ expiresAt (addClick now c u) = expiresAt u
  /\ isActive (addClick now c u) = isActive u.
Proof.
  unfold addClick, addClick_trim.
  destruct (_ <? _)%nat; repeat split; reflexivity.
Qed.

Lemma addClicks_snoc cs c u :
  addClicks (cs ++ [c]) u = addClick (fst c) (snd c) (addClicks cs u).
Proof. unfold addClicks. now rewrite fold_left_app. Qed.

Lemma addClicks_untrimmed_snoc cs c u :
  addClicks_untrimmed (cs ++ [c]) u
  = addClick_push (fst c) (snd c) (addClicks_untrimmed cs u).
Proof. unfold addClicks_untrimmed. now rewrite fold_left_app. Qed.

Lemma addClicks_clicks cs u :
  clicks (addClicks cs u) = clicks u + Z.of_nat (List.length cs).
Proof.
  induction cs as [| c cs IH] using rev_ind.
  - cbn. lia.
  - rewrite addClicks_snoc, addClick_clicks, IH, length_app. cbn. lia.
Qed.

Lemma addClicks_untrimmed_spec cs u :
  clicks (addClicks_untrimmed cs u) = clicks u + Z.of_nat (List.length cs)
  /\ clickHistory (addClicks_untrimmed cs u) = clickHistory u ++ entries cs.
Proof.
  induction cs as [| c cs [IHc IHh]] using rev_ind.
  - cbn. rewrite app_nil_r. split; [lia | reflexivity].
  - rewrite addClicks_untrimmed_snoc. split.
    + cbn [addClick_push set_clicks set_clickHistory clicks].
      rewrite IHc, length_app. cbn. lia.
    + rewrite addClick_push_history, IHh.
      unfold entries. rewrite map_app, <- app_assoc. reflexivity.
Qed.

Lemma addClicks_frame cs u :
  maxClicks (addClicks cs u) = maxClicks u
  /\ expiresAt (addClicks cs u) = expiresAt u
  /\ isActive (addClicks cs u) = isActive u.
Proof.
  induction cs as [| c cs IH] using rev_ind.
  - repeat split.
  - rewrite addClicks_snoc.
    destruct (addClick_frame (fst c) (snd c) (addClicks cs u))
      as (_ & _ & _ & _ & Hm & He & Ha).
    rewrite Hm, He, Ha. exact IH.
Qed.

Lemma addClicks_history c cs u :
  clickHistory (addClicks (c :: cs) u)
  = JS.slice_last 100 (clickHistory u ++ entries (c :: cs)).
Proof.
  induction cs as [| d cs IH] using rev_ind.
  - cbn [addClicks fold_left]. apply addClick_history.
  - rewrite app_comm_cons, addClicks_snoc, addClick_history, IH.
    rewrite slice_last_push by lia.
    unfold entries. rewrite map_app, app_assoc. reflexivity.
Qed.

(** C4. A record whose [expiresAt] lies strictly before the instant of
    evaluation is not accessible, whatever its click count, its click limit
    and its active flag. *)
Theorem expired_never_accessible :
  forall (now : Date) (u : Url) (e : Date),
    expiresAt u = Some e -> e < now -> isAccessible now u = false.
Proof.
  intros now u e He Hlt. unfold isAccessible, isExpired. rewrite He.
  apply Z.ltb_lt in Hlt. rewrite Hlt.
  now destruct (isActive u).
Qed.

Lemma expired_never_accessible_witness :
  isAccessible 2000 (Samples.expired_doc true 0 None) = false.
Proof.
  apply (expired_never_accessible 2000 (Samples.expired_doc true 0 None) 1000).
  - reflexivity.
  - lia.
Defined.

(** C3. An active, unexpired record with [maxClicks = N], [N] positive, is
    accessible exactly while [clicks < N]; counted from a fresh record it is
    still accessible after fewer than [N] recorded clicks and no longer
    accessible from the [N]th on. *)
Theorem accessible_until_maxClicks :
  forall (N : Z) (now : Date) (u : Url),
    0 < N -> maxClicks u = Some N ->
    isActive u = true -> isExpired now u = false ->
    isAccessible now u = (clicks u <? N)
    /\ (fresh u ->
        forall cs, isAccessible now (addClicks cs u)
                   = (Z.of_nat (List.length cs) <? N)).
Proof.
  intros N now u HN Hmax Hact Hexp.
  assert (Hstep : forall v, maxClicks v = Some N -> isActive v = true ->
                            expiresAt v = expiresAt u ->
                            isAccessible now v = (clicks v <? N)).
  { intros v Hm Ha He. unfold isAccessible, hasReachedMaxClicks.
    assert (Hx : isExpired now v = false)
      by (unfold isExpired in *; now rewrite He).
    rewrite Ha, Hx, Hm. cbn.
    destruct (Z.eqb_spec N 0) as [-> | _]; [lia |]. cbn.
    rewrite Z.leb_antisym, negb_involutive. reflexivity. }
  split.
  - now apply Hstep.
  - intros [Hc _] cs.
    destruct (addClicks_frame cs u) as (Hm & He & Ha).
    rewrite Hstep; [| congruence | congruence | exact He].
    rewrite addClicks_clicks, Hc. reflexivity.
Qed.

Lemma accessible_until_maxClicks_witness :
  isAccessible 5 (Samples.limited 2) = (clicks (Samples.limited 2) <? 2)
  /\ isAccessible 5 (addClicks [(1, Samples.no_click)] (Samples.limited 2)) = true
  /\ isAccessible 5 (addClicks [(1, Samples.no_click); (2, Samples.no_click)]
                       (Samples.limited 2)) = false.
Proof.
  destruct (accessible_until_maxClicks 2 5 (Samples.limited 2)) as [H0 Hn];
    [lia | reflexivity | reflexivity | reflexivity |].
  split; [exact H0 |].
  split; rewrite Hn by (split; reflexivity); reflexivity.
Defined.

(** C5. After every [addClick] the history holds at most 100 entries, namely
    the last 100 of the previous history followed by the new entry; over a
    run of clicks it is the last 100 of everything appended, oldest
    dropped first. *)
Theorem history_keeps_last_100 :
  forall (now : Date) (c : ClickData) (u : Url),
    (List.length (clickHistory (addClick now c u)) <= 100)%nat
    /\ clickHistory (addClick now c u)
       = JS.slice_last 100 (clickHistory u ++ [click_entry now c])
    /\ forall d cs,
         clickHistory (addClicks (d :: cs) u)
         = skipn (List.length (clickHistory u ++ entries (d :: cs)) - 100)
                 (clickHistory u ++ entries (d :: cs)).
Proof.
  intros now c u. split; [| split].
  - rewrite addClick_history, slice_last_length. lia.
  - apply addClick_history.
  - intros d cs. apply addClicks_history.
Qed.

(** After 101 clicks on a fresh record the history holds the clicks of the
    instants 2 to 101: the first one was dropped. *)
Example history_after_101_clicks :
  map timestamp
      (clickHistory (addClicks (Samples.clicks_at 101) (Samples.limited 5)))
  = map Z.of_nat (seq 2 100).
Proof. vm_compute. reflexivity. Qed.

(** C9. Each [addClick] adds exactly 1 to [clicks] and pushes exactly one
    entry; from a fresh record the counter equals the number of entries
    pushed so far, counted before any trimming. *)
Theorem clicks_count_appended_entries :
  forall (cs : list (Date * ClickData)) (u : Url),
    fresh u ->
    (forall now c v,
        clicks (addClick now c v) = clicks v + 1
        /\ addClick now c v = addClick_trim (addClick_push now c v)
        /\ List.length (clickHistory (addClick_push now c v))
           = S (List.length (clickHistory v)))
    /\ clicks (addClicks cs u)
       = Z.of_nat (List.length (clickHistory (addClicks_untrimmed cs u)))
    /\ clicks (addClicks cs u) = Z.of_nat (List.length cs)
    /\ clickHistory (addClicks cs u)
       = JS.slice_last 100 (clickHistory (addClicks_untrimmed cs u)).
Proof.
  intros cs u [Hc Hh].
  destruct (addClicks_untrimmed_spec cs u) as [_ Hu].
  rewrite Hh in Hu. cbn [app] in Hu.
  repeat split.
  - apply addClick_clicks.
  - rewrite addClick_push_history, length_app. cbn. lia.
  - rewrite addClicks_clicks, Hc, Hu. unfold entries. now rewrite length_map.
  - rewrite addClicks_clicks, Hc. reflexivity.
  - rewrite Hu. destruct cs as [| d cs].
    + cbn. now rewrite Hh.
    + rewrite addClicks_history, Hh. reflexivity.
Qed.

Lemma clicks_count_appended_entries_witness :
  clicks (addClicks [(1, Samples.no_click); (2, Samples.no_click)]
            (Samples.limited 5)) = 2.
Proof.
  destruct (clicks_count_appended_entries
              [(1, Samples.no_click); (2, Samples.no_click)] (Samples.limited 5))
    as (_ & _ & H & _).
  - split; reflexivity.
  - exact H.
Defined.

End UrlFacts.

(* ================================================================== *)
(** ** Facts about the code generators *)
(* ================================================================== *)

Module GeneratorFacts.
Import UrlUtils.

Lemma round53_nonneg p : 0 <= p -> 0 <= JS.round53 p.
Proof.
  intros Hp. unfold JS.round53.
  destruct (Z.leb_spec (Z.log2 p - 52) 0) as [_ | Hs]; [exact Hp |].
  cbv zeta.
  assert (H2 : 0 < 2 ^ (Z.log2 p - 52)) by (apply Z.pow_pos_nonneg; lia).
  assert (Hq : 0 <= p / 2 ^ (Z.log2 p - 52)) by (apply Z.div_pos; lia).
  destruct (_ || _); nia.
Qed.

(** Rounding moves a value by at most half a unit in the last place. *)
Lemma round53_upper p :
  0 <= p -> JS.round53 p <= p + 2 ^ (Z.log2 p - 53).
Proof.
  intros Hp. unfold JS.round53.
  destruct (Z.leb_spec (Z.log2 p - 52) 0) as [Hs | Hs].
  - assert (0 <= 2 ^ (Z.log2 p - 53)) by (apply Z.pow_nonneg; lia). lia.
  - cbv zeta.
    set (s := Z.log2 p - 52) in *.
    replace (Z.log2 p - 53) with (s - 1) by (unfold s; lia).
    assert (H2 : 0 < 2 ^ s) by (apply Z.pow_pos_nonneg; lia).
    assert (Hs2 : 2 ^ s = 2 * 2 ^ (s - 1)).
    { replace s with (Z.succ (s - 1)) at 1 by lia. apply Z.pow_succ_r. lia. }
    pose proof (Z.div_mod p (2 ^ s) ltac:(lia)) as Hdm.
    pose proof (Z.mod_pos_bound p (2 ^ s) H2) as Hm.
    destruct (Z.ltb_spec (2 ^ (s - 1)) (p mod 2 ^ s)) as [Hlt | Hge]; cbn [orb].
    + nia.
    + destruct (Z.eqb_spec (p mod 2 ^ s) (2 ^ (s - 1))) as [Heq | Hne]; cbn [andb].
      * destruct (Z.odd _); nia.
      * nia.
Qed.

Lemma pick_in_range r :
  JS.in_unit r ->
  0 <= JS.Math_floor (JS.fmul_int r 62) < 62.
Proof.
  intros [[Hm0 Hm1] [Hs0 Hs1]]. unfold JS.Math_floor, JS.fmul_int. cbn [JS.mant JS.shift].
  assert (Hp : 0 <= JS.mant r * 62) by lia.
  assert (Hpow : 2 ^ 53 <= 2 ^ JS.shift r) by (apply Z.pow_le_mono_r; lia).
  assert (H2 : 0 < 2 ^ JS.shift r) by (apply Z.pow_pos_nonneg; lia).
  split.
  - apply Z.div_pos; [apply round53_nonneg; exact Hp | exact H2].
  - apply Z.div_lt_upper_bound; [exact H2 |].
    pose proof (round53_upper _ Hp) as Hup.
    assert (Hlog : 2 ^ (Z.log2 (JS.mant r * 62) - 53) <= 32).
    { destruct (Z.eq_dec (JS.mant r) 0) as [-> | Hnz].
      - vm_compute. discriminate.
      - assert (Z.log2 (JS.mant r * 62) < 59).
        { apply Z.log2_lt_pow2; [lia |]. change (2 ^ 59) with (64 * 2 ^ 53). lia. }
        change 32 with (2 ^ 5). apply Z.pow_le_mono_r; lia. }
    change (2 ^ 53) with 9007199254740992 in *. lia.
Qed.

Lemma length_append (s t : string) :
  String.length (s ++ t) = (String.length s + String.length t)%nat.
Proof. induction s as [| c s IH]; cbn; [reflexivity | now rewrite IH]. Qed.

Lemma all_chars_append p (s t : string) :
  all_chars p (s ++ t) = all_chars p s && all_chars p t.
Proof.
  induction s as [| c s IH]; cbn; [reflexivity |].
  now rewrite IH, andb_assoc.
Qed.

(** Every index below 62 selects a character of the alphabet. *)
Lemma chars_get (i : nat) :
  (i < 62)%nat -> exists c, String.get i chars = Some c /\ alnum c = true.
Proof.
  intros Hi.
  do 62 (destruct i as [| i]; [eexists; split; reflexivity |]).
  lia.
Qed.

Lemma charAt_chars (i : Z) :
  0 <= i < 62 ->
  exists c, JS.charAt chars i = String c EmptyString /\ alnum c = true.
Proof.
  intros Hi. unfold JS.charAt.
  destruct (Z.ltb_spec i 0) as [? | _]; [lia |].
  destruct (chars_get (Z.to_nat i)) as (c & Hg & Hc); [lia |].
  rewrite Hg. now exists c.
Qed.

Lemma index_chars (i : Z) :
  0 <= i < 62 -> exists c, JS.index chars i = Some c /\ alnum c = true.
Proof.
  intros Hi. unfold JS.index.
  destruct (Z.ltb_spec i 0) as [? | _]; [lia |].
  apply chars_get. lia.
Qed.

(** The [for] loop of [generateShortCode] appends [n] characters of the
    alphabet, draws [n] numbers and touches nothing else. *)
Lemma generateShortCode_loop_spec (n : nat) :
  forall result w,
    random_in_unit w ->
    exists s w',
      generateShortCode_loop n result w = (Val s, w')
      /\ String.length s = (String.length result + n)%nat
      /\ all_chars alnum s = all_chars alnum result
      /\ urls w' = urls w /\ findOne_log w' = findOne_log w
      /\ next_id w' = next_id w
      /\ random (rng w') = random (rng w)
      /\ drawn (rng w') = (drawn (rng w) + n)%nat.
Proof.
  induction n as [| n IH]; intros result w Hok.
  - exists result, w. cbn. rewrite Nat.add_0_r. repeat split; lia.
  - cbn [generateShortCode_loop]. unfold bind, Math_random.
    change (Z.of_nat (String.length chars)) with 62.
    destruct (charAt_chars _ (pick_in_range _ (Hok (drawn (rng w)))))
      as (c & Hc & Hal).
    rewrite Hc.
    match goal with
    | |- exists s w', generateShortCode_loop n ?r ?w0 = _ /\ _ =>
        destruct (IH r w0) as (s & w' & Hrun & Hlen & Hall & Hu & Hl & Hi & Hr & Hd)
    end.
    { intros i. apply Hok. }
    exists s, w'. rewrite Hrun. split; [reflexivity |].
    rewrite Hlen, Hall, length_append, all_chars_append, Hu, Hl, Hi, Hr, Hd.
    cbn. rewrite Hal, andb_true_r. repeat split; lia.
Qed.

Lemma generateSecureShortCode_loop_spec (bytes : list Byte.byte) (n : nat) :
  forall i result,
    (i + n <= List.length bytes)%nat ->
    String.length (generateSecureShortCode_loop bytes n i result)
    = (String.length result + n)%nat
    /\ all_chars alnum (generateSecureShortCode_loop bytes n i result)
       = all_chars alnum result.
Proof.
  induction n as [| n IH]; intros i result Hlen.
  - cbn. rewrite Nat.add_0_r. split; reflexivity.
  - cbn [generateSecureShortCode_loop].
    destruct (nth_error bytes i) as [b |] eqn:Hb.
    2: { apply nth_error_None in Hb. lia. }
    change (Z.of_nat (String.length chars)) with 62.
    destruct (index_chars (Z.of_N (Byte.to_N b) mod 62)) as (c & Hc & Hal).
    { apply Z.mod_pos_bound. lia. }
    rewrite Hc. cbn [JS.append_indexed].
    destruct (IH (S i) (result ++ String c EmptyString)%string) as [Hl Ha]; [lia |].
    rewrite Hl, Ha, length_append, all_chars_append. cbn.
    rewrite Hal, andb_true_r. split; [lia | reflexivity].
Qed.

(** C8. For every requested length, 6 by default, both generators return a
    string of exactly that length whose characters all belong to
    [[A-Za-z0-9]]; the alphabet has 62 characters. *)
Theorem generated_codes_length_and_alphabet :
  forall (length : nat) (w : World),
    random_in_unit w ->
    String.length chars = 62%nat
    /\ default_length = 6%nat
    /\ (exists s w',
          generateShortCode length w = (Val s, w')
          /\ String.length s = length /\ all_chars alnum s = true)
    /\ (exists s w',
          generateSecureShortCode length w = (Val s, w')
          /\ String.length s = length /\ all_chars alnum s = true).
Proof.
  intros length w Hok. split; [reflexivity |]. split; [reflexivity |]. split.
  - destruct (generateShortCode_loop_spec length "" w Hok)
      as (s & w' & Hrun & Hlen & Hall & _).
    exists s, w'. repeat split; assumption.
  - unfold generateSecureShortCode, bind, crypto_randomBytes, ret.
    do 2 eexists. split; [reflexivity |].
    apply (generateSecureShortCode_loop_spec _ length 0 "").
    rewrite length_map, length_seq. lia.
Qed.

Lemma in_unitb_sound r : JS.in_unitb r = true -> JS.in_unit r.
Proof.
  unfold JS.in_unitb, JS.in_unit. intros H.
  apply andb_prop in H as [H H4]. apply andb_prop in H as [H H3].
  apply andb_prop in H as [H1 H2].
  apply Z.leb_le in H1, H3, H4. apply Z.ltb_lt in H2. lia.
Qed.

Lemma sample_random_in_unit : random_in_unit Samples.crowded_world.
Proof.
  intros i. unfold Samples.crowded_world, Samples.rng_nine_then_fresh.
  cbn [rng random].
  destruct (i <? 54)%nat; apply in_unitb_sound; vm_compute; reflexivity.
Qed.

Lemma generated_codes_length_and_alphabet_witness :
  exists s w',
    generateShortCode 6 Samples.crowded_world = (Val s, w')
    /\ String.length s = 6%nat /\ all_chars alnum s = true.
Proof.
  destruct (generated_codes_length_and_alphabet 6 Samples.crowded_world
              sample_random_in_unit) as (_ & _ & H & _).
  exact H.
Defined.

End GeneratorFacts.

(* ================================================================== *)
(** ** Facts about the route handlers *)
(* ================================================================== *)

Module RouteFacts.
Import Routes.

Lemma bind_val {A B} (m : M A) (f : A -> M B) w a w' :
  m w = (Val a, w') -> bind m f w = f a w'.
Proof. intros H. unfold bind. now rewrite H. Qed.

Lemma bind_return {A B} (m : M A) (f : A -> M B) w r w' :
  m w = (Return r, w') -> bind m f w = (Return r, w').
Proof. intros H. unfold bind. now rewrite H. Qed.

Lemma find_none_existsb {A} (p : A -> bool) l :
  find p l = None <-> existsb p l = false.
Proof.
  induction l as [| x l IH]; cbn; [tauto |].
  destruct (p x); cbn; [split; discriminate | exact IH].
Qed.

Lemma find_app_last {A} (p : A -> bool) l x :
  existsb p l = false -> p x = true -> find p (l ++ [x]) = Some x.
Proof.
  induction l as [| y l IH]; cbn; intros Hl Hx.
  - now rewrite Hx.
  - apply orb_false_iff in Hl as [Hy Hl]. rewrite Hy. now apply IH.
Qed.

(** C6. When [GET /:shortCode] finds the record but it is not accessible, the
    answer is 410 and its reason follows the priority expired, then click
    limit reached, then deactivated; the store is left as it was. *)
Theorem gone_reason_priority :
  forall (now : Date) (req : RedirectRequest) (w : World) (url : Url),
    find (Store.has_shortCode (p_shortCode req)) (urls w) = Some url ->
    UrlModel.isAccessible now url = false ->
    (exists message,
        get_shortCode now req w
        = (Some (json 410 false message None), log_findOne (p_shortCode req) w)
        /\ (UrlModel.isExpired now url = true ->
            message = "This short URL has expired")
        /\ (UrlModel.isExpired now url = false ->
            UrlModel.hasReachedMaxClicks url = true ->
            message = "This short URL has reached its maximum click limit")
        /\ (UrlModel.isExpired now url = false ->
            UrlModel.hasReachedMaxClicks url = false ->
            isActive url = false
            /\ message = "This short URL has been deactivated")).
Proof.
  intros now req w url Hfind Hacc.
  exists (gone_message now url). split.
  - unfold get_shortCode, try_catch, redirect_body, bind, Store.findOne_shortCode.
    rewrite Hfind, Hacc. reflexivity.
  - unfold gone_message. unfold UrlModel.isAccessible in Hacc.
    destruct (UrlModel.isExpired now url), (UrlModel.hasReachedMaxClicks url),
      (isActive url); cbn in Hacc; try discriminate;
      repeat split; intros; try discriminate; reflexivity.
Qed.

Lemma gone_reason_priority_witness :
  exists message,
    get_shortCode 2000 (Samples.visit "abc123")
      {| urls := [Samples.expired_doc false 7 (Some 7)]; findOne_log := [];
         next_id := 2%N; rng := Samples.rng_zero |}
    = (Some (json 410 false message None),
       log_findOne "abc123"
         {| urls := [Samples.expired_doc false 7 (Some 7)]; findOne_log := [];
            next_id := 2%N; rng := Samples.rng_zero |})
    /\ message = "This short URL has expired".
Proof.
  destruct (gone_reason_priority 2000 (Samples.visit "abc123")
              {| urls := [Samples.expired_doc false 7 (Some 7)]; findOne_log := [];
                 next_id := 2%N; rng := Samples.rng_zero |}
              (Samples.expired_doc false 7 (Some 7)) eq_refl eq_refl)
    as (message & Hrun & Hexp & _).
  exists message. split; [exact Hrun | apply Hexp; reflexivity].
Defined.

Lemma filter_remove_first (p q : Url -> bool) l :
  (forall u, p u = true -> q u = false) ->
  filter q (Store.remove_first p l) = filter q l.
Proof.
  intros Hpq. induction l as [| u l IH]; cbn; [reflexivity |].
  destruct (p u) eqn:Hp.
  - now rewrite (Hpq u Hp).
  - cbn. now rewrite IH.
Qed.

Lemma filter_filter_disjoint (p q : Url -> bool) l :
  (forall u, p u = true -> q u = false) ->
  filter q (filter (fun u => negb (p u)) l) = filter q l.
Proof.
  intros Hpq. induction l as [| u l IH]; cbn; [reflexivity |].
  destruct (p u) eqn:Hp; cbn.
  - now rewrite (Hpq u Hp).
  - now rewrite IH.
Qed.

Lemma remove_first_no_match (p : Url -> bool) l :
  find p l = None -> Store.remove_first p l = l.
Proof.
  induction l as [| u l IH]; cbn; [reflexivity |].
  destruct (p u); [discriminate |]. intros H. now rewrite IH.
Qed.

(** C10. The two delete routes leave every record of another owner, and every
    anonymous record, in the store exactly as it was, whatever ids the request
    names; a single delete whose id matches no record of the caller answers
    404 and changes nothing. *)
Theorem deletes_touch_only_own_records :
  forall (caller id : ObjectId) (urlIds : list ObjectId) (w : World),
    filter (Store.foreign caller) (urls (snd (delete_id caller id w)))
    = filter (Store.foreign caller) (urls w)
    /\ filter (Store.foreign caller) (urls (snd (bulk_delete caller urlIds w)))
       = filter (Store.foreign caller) (urls w)
    /\ (forall u, In u (urls w) -> userId u <> Some caller ->
                  In u (urls (snd (delete_id caller id w)))
                  /\ In u (urls (snd (bulk_delete caller urlIds w))))
    /\ ((forall u, In u (urls w) -> _id u = id -> userId u <> Some caller) ->
        delete_id caller id w = (Some (json 404 false "URL not found" None), w)).
Proof.
  intros caller id urlIds w.
  assert (H1 : filter (Store.foreign caller) (urls (snd (delete_id caller id w)))
               = filter (Store.foreign caller) (urls w)).
  { unfold delete_id, try_catch, delete_body, bind, Store.findOneAndDelete.
    destruct (find _ (urls w)) as [found |]; cbn;
      (apply filter_remove_first; intros v Hv; unfold Store.foreign;
       unfold Store.by_id_and_owner in Hv; apply andb_prop in Hv as [_ ->];
       reflexivity). }
  assert (H2 : filter (Store.foreign caller) (urls (snd (bulk_delete caller urlIds w)))
               = filter (Store.foreign caller) (urls w)).
  { unfold bulk_delete, try_catch, bulk_delete_body.
    destruct (_ <? _)%nat; [reflexivity |]. cbn.
    apply filter_filter_disjoint. intros u Hu. unfold Store.foreign.
    unfold Store.in_ids_and_owner in Hu. apply andb_prop in Hu as [_ ->].
    reflexivity. }
  assert (Hforeign : forall u, userId u <> Some caller -> Store.foreign caller u = true).
  { intros u Hu. unfold Store.foreign, Store.owned.
    destruct (userId u) as [o |]; [| reflexivity].
    destruct (N.eqb_spec o caller) as [-> | _]; [now elim Hu | reflexivity]. }
  split; [exact H1 |]. split; [exact H2 |]. split.
  - intros u Hu Hown.
    assert (Hin : In u (filter (Store.foreign caller) (urls w)))
      by (apply filter_In; auto).
    split.
    + rewrite <- H1 in Hin. now apply filter_In in Hin.
    + rewrite <- H2 in Hin. now apply filter_In in Hin.
  - intros Hnone.
    assert (Hf : find (Store.by_id_and_owner id caller) (urls w) = None).
    { apply find_none_existsb. apply not_true_is_false. intros Hex.
      apply existsb_exists in Hex as (u & Hin & Hu).
      unfold Store.by_id_and_owner in Hu. apply andb_prop in Hu as [Hid Hown].
      apply N.eqb_eq in Hid. apply (Hnone u Hin Hid).
      unfold Store.owned in Hown. destruct (userId u) as [o |]; [| discriminate].
      apply N.eqb_eq in Hown. now subst. }
    unfold delete_id, try_catch, delete_body, bind, Store.findOneAndDelete.
    rewrite Hf, (remove_first_no_match _ _ Hf). cbn.
    destruct w; reflexivity.
Qed.

Lemma deletes_touch_only_own_records_witness :
  In (Samples.doc 2%N "bob002" (Some 20%N))
     (urls (snd (delete_id 10%N 2%N Samples.shared_world)))
  /\ delete_id 10%N 2%N Samples.shared_world
     = (Some (json 404 false "URL not found" None), Samples.shared_world).
Proof.
  destruct (deletes_touch_only_own_records 10%N 2%N [1%N; 2%N; 3%N]
              Samples.shared_world) as (_ & _ & Hkeep & Hmiss).
  split.
  - apply (Hkeep (Samples.doc 2%N "bob002" (Some 20%N))).
    + cbn. auto.
    + cbn. discriminate.
  - apply Hmiss. intros u [<- | [<- | [<- | []]]]; cbn; discriminate.
Defined.

Lemma alnum_not_space c : UrlUtils.alnum c = true -> JS.is_space c = false.
Proof.
  destruct c as [[] [] [] [] [] [] [] []]; vm_compute; intros H;
    solve [reflexivity | discriminate].
Qed.

Lemma trim_alnum (s : string) :
  UrlUtils.all_chars UrlUtils.alnum s = true -> JS.trim s = s.
Proof.
  intros H. unfold JS.trim.
  assert (Hs : JS.trimStart s = s).
  { destruct s as [| c s]; [reflexivity |]. cbn in *.
    apply andb_prop in H as [Hc _]. now rewrite (alnum_not_space c Hc). }
  rewrite Hs. clear Hs.
  induction s as [| c s IH]; [reflexivity |].
  cbn in *. apply andb_prop in H as [Hc Hr].
  rewrite (IH Hr), (alnum_not_space c Hc). now destruct s.
Qed.

(** The generation loop: it answers within its budget, leaves the collection
    and the id counter alone, looks up at most nine candidates, and a code it
    yields has six characters of the alphabet and was absent from the store. *)
Lemma generate_loop_spec (fuel : nat) :
  forall attempts w,
    UrlUtils.random_in_unit w ->
    0 <= attempts < maxAttempts ->
    (Z.to_nat (maxAttempts - attempts) <= fuel)%nat ->
    exists res w',
      generate_loop fuel attempts w = (res, w')
      /\ urls w' = urls w /\ next_id w' = next_id w
      /\ (List.length (findOne_log w')
          <= List.length (findOne_log w) + Z.to_nat (maxAttempts - 1 - attempts))%nat
      /\ (res = Return generation_exhausted
          \/ exists c, res = Val c
                       /\ String.length c = 6%nat
                       /\ UrlUtils.all_chars UrlUtils.alnum c = true
                       /\ find (Store.has_shortCode c) (urls w) = None).
Proof.
  unfold maxAttempts.
  induction fuel as [| fuel IH]; intros attempts w Hok Hatt Hfuel; [lia |].
  cbn [generate_loop]. unfold UrlUtils.generateShortCode, UrlUtils.default_length.
  destruct (GeneratorFacts.generateShortCode_loop_spec 6 "" w Hok)
    as (s & w1 & Hrun & Hlen & Hall & Hu & Hl & Hi & Hr & Hd).
  rewrite (bind_val _ _ _ _ _ Hrun). unfold maxAttempts.
  destruct (Z.leb_spec 10 (attempts + 1)) as [Hlast | Hmore].
  - exists (Return generation_exhausted), w1. unfold respond.
    repeat split; try assumption; [rewrite Hl; lia | now left].
  - unfold bind, Store.findOne_shortCode.
    destruct (find (Store.has_shortCode s) (urls w1)) as [taken |] eqn:Hfind.
    + destruct (IH (attempts + 1) (log_findOne s w1))
        as (res & w' & Hloop & Hu' & Hi' & Hl' & Hres).
      * intros i. cbn. rewrite Hr. apply Hok.
      * lia.
      * lia.
      * exists res, w'. split; [exact Hloop |].
        split; [now rewrite Hu' |]. split; [now rewrite Hi' |]. split.
        -- cbn [findOne_log log_findOne] in Hl'.
           rewrite length_app, Hl in Hl'. cbn [List.length] in Hl'. lia.
        -- destruct Hres as [-> | (c & -> & Hc6 & Hca & Hcf)]; [now left |].
           right. exists c. cbn in Hcf. rewrite Hu in Hcf. auto.
    + exists (Val s), (log_findOne s w1). unfold ret.
      split; [reflexivity |]. cbn [urls next_id findOne_log log_findOne].
      split; [exact Hu |]. split; [exact Hi |]. split.
      * rewrite length_app, Hl. cbn [List.length]. lia.
      * right. exists s. rewrite <- Hu. cbn in Hlen, Hall. auto.
Qed.


Lemma validation_custom isURL req c :
  b_customCode req = Some c -> validationResult isURL req = true ->
  JS.truthy_str (Some c) = true.
Proof.
  intros Hc Hv. unfold validationResult in Hv. rewrite Hc in Hv. cbn in Hv.
  destruct c; [| reflexivity].
  cbn in Hv. rewrite !andb_false_r in Hv. cbn in Hv. discriminate.
Qed.

Lemma pick_custom (fuel : nat) (c : string) (w : World) :
  JS.truthy_str (Some c) = true ->
  pick_shortCode fuel (Some c) w
  = match find (Store.has_shortCode c) (urls w) with
    | Some _ =>
        (Return (json 400 false "Custom code is already taken" None),
         log_findOne c w)
    | None => (Val c, log_findOne c w)
    end.
Proof.
  intros Ht. unfold pick_shortCode. rewrite Ht. cbn [negb].
  unfold bind, Store.findOne_shortCode.
  destruct (find _ (urls w)); reflexivity.
Qed.

(** C7. With a caller-supplied code the handler looks the code up once, by
    exact match, and when a record holds that code it answers 400 and
    creates nothing. *)
Theorem custom_code_taken_is_rejected :
  forall (isURL : string -> bool) (URL_protocol : string -> option string)
         (now : Date) (req : ShortenRequest) (c : string) (w : World),
    b_customCode req = Some c ->
    validationResult isURL req = true ->
    UrlUtils.isValidUrl URL_protocol (b_originalUrl req) = true ->
    findOne_log (snd (shorten isURL URL_protocol now req w)) = findOne_log w ++ [c]
    /\ (forall u,
           find (Store.has_shortCode c) (urls w) = Some u ->
           shortCode u = c
           /\ shorten isURL URL_protocol now req w
              = (Some (json 400 false "Custom code is already taken" None),
                 log_findOne c w)).
Proof.
  intros isURL proto now req c w Hc Hv Hu.
  pose proof (validation_custom isURL req c Hc Hv) as Ht.
  pose proof (pick_custom (Z.to_nat maxAttempts) c w Ht) as Hpick.
  unfold shorten, shorten_with, try_catch, shorten_body.
  rewrite Hv, Hu, Hc. cbn [negb].
  destruct (find (Store.has_shortCode c) (urls w)) as [taken |] eqn:Hfind.
  - rewrite (bind_return _ _ _ _ _ Hpick).
    split; [reflexivity |]. intros u Heq. injection Heq as <-. split; [| reflexivity].
    apply find_some in Hfind as [_ Hcode]. now apply String.eqb_eq in Hcode.
  - rewrite (bind_val _ _ _ _ _ Hpick).
    split; [| intros u Heq; discriminate].
    unfold ret, bind, Store.construct, Store.save_new.
    destruct (negb _); [reflexivity |].
    destruct (existsb _ _); reflexivity.
Qed.

Lemma custom_code_taken_is_rejected_witness :
  shorten Samples.sample_isURL Samples.sample_protocol 5
    (Samples.custom_request "AAAAAA") Samples.crowded_world
  = (Some (json 400 false "Custom code is already taken" None),
     log_findOne "AAAAAA" Samples.crowded_world).
Proof.
  destruct (custom_code_taken_is_rejected
              Samples.sample_isURL Samples.sample_protocol 5
              (Samples.custom_request "AAAAAA") "AAAAAA" Samples.crowded_world)
    as [_ Htaken]; [reflexivity | reflexivity | reflexivity |].
  apply (Htaken (Samples.doc 1%N "AAAAAA" None)). reflexivity.
Defined.

(** The record stored under a code once [save] replaced it. *)
Lemma find_after_save (p : Url -> bool) (u2 : Url) (l : list Url) :
  p u2 = true ->
  (forall d, In d l -> p d = true -> _id d = _id u2) ->
  (exists d, In d l /\ _id d = _id u2) ->
  find p (map (fun d => if (_id d =? _id u2)%N then u2 else d) l) = Some u2.
Proof.
  intros Hp. induction l as [| d l IH]; intros Honly (x & Hin & Hx).
  - destruct Hin.
  - cbn [map find].
    destruct (N.eqb_spec (_id d) (_id u2)) as [Heq | Hne].
    + now rewrite Hp.
    + destruct (p d) eqn:Hpd.
      * elim Hne. apply Honly; [now left | exact Hpd].
      * apply IH.
        -- intros e He. apply Honly. now right.
        -- exists x. split; [| exact Hx].
           destruct Hin as [-> | Hin]; [contradiction | exact Hin].
Qed.

(** What a 201 answer of [POST /shorten] without a custom code implies. *)
Lemma shorten_created isURL proto now req w message url w1 :
  b_customCode req = None ->
  UrlUtils.random_in_unit w ->
  shorten isURL proto now req w = (Some (json 201 true message (Some url)), w1) ->
  validationResult isURL req = true
  /\ originalUrl url = JS.trim (b_originalUrl req)
  /\ String.length (shortCode url) = 6%nat
  /\ UrlUtils.all_chars UrlUtils.alnum (shortCode url) = true
  /\ find (Store.has_shortCode (shortCode url)) (urls w) = None
  /\ clicks url = 0 /\ clickHistory url = [] /\ isActive url = true
  /\ maxClicks url = b_maxClicks req /\ expiresAt url = b_expiresAt req
  /\ urls w1 = urls w ++ [url].
Proof.
  intros Hc Hok Hrun.
  unfold shorten, shorten_with, try_catch, shorten_body in Hrun.
  destruct (validationResult isURL req) eqn:Hv; [| discriminate].
  destruct (UrlUtils.isValidUrl proto (b_originalUrl req)); [| discriminate].
  cbn [negb] in Hrun. rewrite Hc in Hrun. cbn [pick_shortCode] in Hrun.
  destruct (generate_loop_spec (Z.to_nat maxAttempts) 0 w Hok)
    as (res & wa & Hloop & Hu & Hi & _ & Hres);
    [unfold maxAttempts; lia | unfold maxAttempts; lia |].
  destruct Hres as [-> | (c & -> & Hc6 & Hca & Hcf)].
  - rewrite (bind_return _ _ _ _ _ Hloop) in Hrun. discriminate.
  - rewrite (bind_val _ _ _ _ _ Hloop) in Hrun.
    unfold bind, Store.construct, Store.save_new, ret in Hrun.
    cbn [Store.d_originalUrl Store.d_shortCode Store.d_customCode Store.d_userId
         Store.d_title Store.d_description Store.d_expiresAt Store.d_maxClicks
         Store.d_tags UrlModel.set_updatedAt _id originalUrl shortCode customCode
         userId clicks maxClicks expiresAt isActive title description tags
         clickHistory createdAt updatedAt] in Hrun.
    rewrite (trim_alnum c Hca) in Hrun.
    destruct (negb _); [discriminate |].
    destruct (existsb _ _) eqn:Hex; [discriminate |].
    injection Hrun as _ <- <-.
    cbn. rewrite Hu. repeat split; assumption.
Qed.

(** [POST /shorten] always answers: the loop budget is never the reason a
    response is missing. *)
Lemma shorten_responds isURL proto now req w :
  UrlUtils.random_in_unit w ->
  exists r, fst (shorten isURL proto now req w) = Some r.
Proof.
  intros Hok. unfold shorten, shorten_with, try_catch, shorten_body.
  destruct (validationResult isURL req); [| eexists; reflexivity].
  destruct (UrlUtils.isValidUrl proto (b_originalUrl req)); [| eexists; reflexivity].
  cbn [negb].
  assert (Hpick : exists res wa,
             pick_shortCode (Z.to_nat maxAttempts) (b_customCode req) w = (res, wa)
             /\ res <> NoFuel).
  { unfold pick_shortCode.
    assert (Hgen : exists res wa,
               generate_loop (Z.to_nat maxAttempts) 0 w = (res, wa) /\ res <> NoFuel).
    { destruct (generate_loop_spec (Z.to_nat maxAttempts) 0 w Hok)
        as (res & wa & Hloop & _ & _ & _ & Hres);
        [unfold maxAttempts; lia | unfold maxAttempts; lia |].
      exists res, wa. split; [exact Hloop |].
      destruct Hres as [-> | (c & -> & _)]; discriminate. }
    destruct (b_customCode req) as [c |]; [| exact Hgen].
    destruct (negb _); [exact Hgen |].
    unfold bind, Store.findOne_shortCode.
    destruct (find _ (urls w)); do 2 eexists; (split; [reflexivity | discriminate]). }
  destruct Hpick as (res & wa & Hpick & Hne).
  unfold bind at 1. rewrite Hpick.
  destruct res as [c | r | |]; try (eexists; reflexivity); [| now elim Hne].
  unfold bind, Store.construct, Store.save_new, ret.
  destruct (negb _); [eexists; reflexivity |].
  destruct (existsb _ _); eexists; reflexivity.
Qed.

(** C1, amended. A record created by [POST /shorten] without a custom code
    stores the submitted URL under the generated six-character code; a
    following [GET /:shortCode] on that code, made while the record has not
    expired, answers 302 with the submitted URL as location and takes the
    stored record's [clicks] from 0 to 1.  The hypothesis on [isURL] is
    validator.js's refusal of any string that contains white space, which
    makes the schema's [trim] setter the identity on an accepted URL. *)
Theorem shorten_then_visit_redirects :
  forall (isURL : string -> bool) (URL_protocol : string -> option string),
    (forall s, isURL s = true -> JS.trim s = s) ->
    forall (t0 t1 : Date) (req : ShortenRequest) (visit : RedirectRequest)
           (w w1 : World) (message : string) (url : Url),
      b_customCode req = None ->
      UrlUtils.random_in_unit w ->
      shorten isURL URL_protocol t0 req w
      = (Some (json 201 true message (Some url)), w1) ->
      p_shortCode visit = shortCode url ->
      UrlModel.isExpired t1 url = false ->
      originalUrl url = b_originalUrl req
      /\ String.length (shortCode url) = 6%nat
      /\ clicks url = 0
      /\ find (Store.has_shortCode (shortCode url)) (urls w1) = Some url
      /\ exists url' w2,
           get_shortCode t1 visit w1
           = (Some (redirect 302 (b_originalUrl req)), w2)
           /\ find (Store.has_shortCode (shortCode url)) (urls w2) = Some url'
           /\ originalUrl url' = b_originalUrl req
           /\ clicks url' = 1.
Proof.
  intros isURL proto Hspace t0 t1 req visit w w1 message url Hc Hok Hrun Hvisit Hexp.
  destruct (shorten_created _ _ _ _ _ _ _ _ Hc Hok Hrun)
    as (Hv & Horig & Hlen & _ & Hfree & Hclicks & _ & Hact & Hmax & _ & Hurls).
  unfold validationResult in Hv.
  apply andb_prop in Hv as [Hv Hvmax]. apply andb_prop in Hv as [Hv _].
  apply andb_prop in Hv as [Hv _]. apply andb_prop in Hv as [Hv _].
  apply andb_prop in Hv as [Hvurl _].
  rewrite (Hspace _ Hvurl) in Horig.
  assert (Hself : Store.has_shortCode (shortCode url) url = true)
    by apply String.eqb_refl.
  assert (Hfind : find (Store.has_shortCode (shortCode url)) (urls w1) = Some url).
  { rewrite Hurls. apply find_app_last; [| exact Hself].
    now apply find_none_existsb. }
  assert (Hacc : UrlModel.isAccessible t1 url = true).
  { unfold UrlModel.isAccessible, UrlModel.hasReachedMaxClicks.
    rewrite Hact, Hexp, Hmax, Hclicks. cbn [andb negb].
    destruct (b_maxClicks req) as [m |]; [| reflexivity].
    cbn in Hvmax. apply Z.leb_le in Hvmax. cbn [JS.truthy_num].
    destruct (Z.eqb_spec m 0) as [-> | _]; [lia |]. cbn [negb].
    destruct (Z.leb_spec m 0); [lia | reflexivity]. }
  repeat (split; [assumption |]).
  set (url' := UrlModel.set_updatedAt t1
                 (UrlModel.addClick t1 (clickData_of visit) url)).
  destruct (UrlFacts.addClick_frame t1 (clickData_of visit) url)
    as (Hid & Ho & Hs & _).
  exists url'. eexists. split; [| split; [| split]].
  - unfold get_shortCode, try_catch, redirect_body, bind, Store.findOne_shortCode.
    rewrite Hvisit, Hfind, Hacc. cbn [negb]. unfold Store.save, ret.
    fold url'. replace (originalUrl url') with (b_originalUrl req); [reflexivity |].
    unfold url'. cbn [UrlModel.set_updatedAt originalUrl]. now rewrite Ho.
  - cbn [urls set_urls log_findOne]. apply find_after_save.
    + unfold Store.has_shortCode, url'. cbn [UrlModel.set_updatedAt shortCode].
      rewrite Hs. apply String.eqb_refl.
    + intros d Hin Hd. rewrite Hurls in Hin. apply in_app_or in Hin as [Hin | Hin].
      * pose proof (find_none _ _ Hfree d Hin) as Hno. congruence.
      * destruct Hin as [<- | []]. unfold url'. cbn [UrlModel.set_updatedAt _id].
        now rewrite Hid.
    + exists url. split.
      * rewrite Hurls. apply in_or_app. right. now left.
      * unfold url'. cbn [UrlModel.set_updatedAt _id]. now rewrite Hid.
  - unfold url'. cbn [UrlModel.set_updatedAt originalUrl]. now rewrite Ho.
  - unfold url'. cbn [UrlModel.set_updatedAt clicks].
    rewrite UrlFacts.addClick_clicks, Hclicks. reflexivity.
Qed.

Lemma sample_isURL_no_space s :
  Samples.sample_isURL s = true -> JS.trim s = s.
Proof.
  unfold Samples.sample_isURL. intros H.
  apply andb_prop in H as [_ H]. now apply String.eqb_eq in H.
Qed.

Lemma zero_random_in_unit : UrlUtils.random_in_unit Samples.empty_world.
Proof.
  intros i. apply GeneratorFacts.in_unitb_sound. reflexivity.
Qed.

Lemma shorten_then_visit_redirects_witness :
  exists url' w2,
    get_shortCode 7 (Samples.visit "AAAAAA")
      (snd (shorten Samples.sample_isURL Samples.sample_protocol 5
              Samples.plain_request Samples.empty_world))
    = (Some (redirect 302 Samples.long_url), w2)
    /\ find (Store.has_shortCode "AAAAAA") (urls w2) = Some url'
    /\ clicks url' = 1.
Proof.
  edestruct (shorten_then_visit_redirects
               Samples.sample_isURL Samples.sample_protocol sample_isURL_no_space
               5 7 Samples.plain_request (Samples.visit "AAAAAA")
               Samples.empty_world)
    as (_ & _ & _ & _ & url' & w2 & Hget & Hfind & _ & Hclicks);
    [reflexivity | exact zero_random_in_unit | vm_compute; reflexivity
     | reflexivity | reflexivity |].
  exists url', w2. repeat split; assumption.
Defined.

(** C1 as first stated fails: a record created with an expiry is stored under
    its generated code, yet once the expiry has passed the visit is answered
    410 and the counter stays at 0. *)
Lemma shorten_then_visit_expired_counterexample :
  exists url w1,
    shorten Samples.sample_isURL Samples.sample_protocol 5
      Samples.expiring_request Samples.empty_world
    = (Some (json 201 true "URL shortened successfully" (Some url)), w1)
    /\ originalUrl url = Samples.long_url
    /\ shortCode url = "AAAAAA"
    /\ get_shortCode 2000 (Samples.visit "AAAAAA") w1
       = (Some (json 410 false "This short URL has expired" None),
          log_findOne "AAAAAA" w1)
    /\ fst (get_shortCode 2000 (Samples.visit "AAAAAA") w1)
       <> Some (redirect 302 Samples.long_url)
    /\ map clicks (urls (snd (get_shortCode 2000 (Samples.visit "AAAAAA") w1)))
       = [0].
Proof.
  do 2 eexists. split; [vm_compute; reflexivity |].
  repeat split; try (vm_compute; reflexivity). discriminate.
Qed.

(** C2, at the failing input. One stored record holds [AAAAAA]; the source
    yields [AAAAAA] nine times and then [ffffff], which no record holds.  The
    handler looks up the nine colliding candidates, draws the tenth, and
    answers 500 without looking it up; nothing is created. *)
Theorem tenth_candidate_is_never_checked :
  shorten Samples.sample_isURL Samples.sample_protocol 5
    Samples.plain_request Samples.crowded_world
  = (Some generation_exhausted,
     {| urls := urls Samples.crowded_world;
        findOne_log := repeat "AAAAAA" 9;
        next_id := next_id Samples.crowded_world;
        rng := {| random := random Samples.rng_nine_then_fresh; drawn := 60;
                  entropy := entropy Samples.rng_nine_then_fresh;
                  consumed := 0 |} |})
  /\ fst (UrlUtils.generateShortCode UrlUtils.default_length
            Samples.crowded_world_after_nine) = Val "ffffff"
  /\ find (Store.has_shortCode "ffffff") (urls Samples.crowded_world) = None
  /\ status_of generation_exhausted = 500.
Proof.
  split; [vm_compute; reflexivity |].
  split; [vm_compute; reflexivity |].
  split; reflexivity.
Qed.
End RouteFacts.

(* ================================================================== *)
(** ** Further facts: the model's edges, the suspicious-URL check *)
(* ================================================================== *)

Module ModelFacts.
Import UrlModel.

(** X1. A record is accessible exactly when it is active, the instant of
    evaluation is not after [expiresAt] (if any), and [clicks] is below
    [maxClicks] (if any, a limit of 0 counting as none).  In particular it is
    still accessible at the very instant [expiresAt]. *)
Theorem isAccessible_iff :
  forall (now : Date) (u : Url),
    (isAccessible now u = true <->
     isActive u = true
     /\ (forall e, expiresAt u = Some e -> now <= e)
     /\ (forall m, maxClicks u = Some m -> m <> 0 -> clicks u < m))
    /\ (expiresAt u = Some now -> isExpired now u = false).
Proof.
  intros now u.
  assert (Hexp : isExpired now u = false
                 <-> forall e, expiresAt u = Some e -> now <= e).
  { unfold isExpired. destruct (expiresAt u) as [e |].
    - rewrite Z.ltb_ge. split.
      + intros H e' [= <-]. exact H.
      + intros H. now apply H.
    - split; [intros _ e [=] | reflexivity]. }
  assert (Hmax : hasReachedMaxClicks u = false
                 <-> forall m, maxClicks u = Some m -> m <> 0 -> clicks u < m).
  { unfold hasReachedMaxClicks, JS.truthy_num. destruct (maxClicks u) as [m |].
    - destruct (Z.eqb_spec m 0) as [-> | Hm]; cbn [negb].
      + split; [intros _ m [= <-] Hm; now elim Hm | reflexivity].
      + rewrite Z.leb_gt. split.
        * intros H m' [= <-] _. exact H.
        * intros H. now apply H.
    - cbn. split; [intros _ m [=] | reflexivity]. }
  split.
  - unfold isAccessible. rewrite !andb_true_iff, !negb_true_iff, Hexp, Hmax.
    tauto.
  - intros He. apply Hexp. intros e Heq. rewrite He in Heq.
    injection Heq as <-. lia.
Qed.

Lemma isAccessible_iff_witness :
  isExpired 1000 (Samples.expired_doc true 0 None) = false
  /\ isAccessible 1000 (Samples.expired_doc true 0 None) = true.
Proof.
  destruct (isAccessible_iff 1000 (Samples.expired_doc true 0 None)) as [Hiff Hedge].
  split; [apply Hedge; reflexivity |].
  apply Hiff. split; [reflexivity |]. split.
  - intros e [= <-]. lia.
  - intros m [=].
Defined.

End ModelFacts.

Module SuspiciousFacts.
Import Suspicious.

Lemma matches_at_app pat s b :
  matches_at pat s = true -> matches_at pat (s ++ b) = true.
Proof.
  revert s. induction pat as [| p pat IH]; intros s H; [reflexivity |].
  destruct s as [| c s]; [discriminate |].
  cbn in *. apply andb_prop in H as [-> H]. now apply IH.
Qed.

Lemma test_app_r pat s b : test pat s = true -> test pat (s ++ b) = true.
Proof.
  induction s as [| c s IH]; intros H.
  - cbn in H. rewrite orb_false_r in H.
    destruct pat; [| discriminate]. now destruct b.
  - cbn [test] in H. apply orb_prop in H as [H | H].
    + change (String c s ++ b)%string with (String c (s ++ b)).
      cbn [test]. apply orb_true_intro. left.
      now apply (matches_at_app pat (String c s) b).
    + change (String c s ++ b)%string with (String c (s ++ b)).
      cbn [test]. rewrite (IH H). apply orb_true_r.
Qed.

Lemma test_app_l pat a s : test pat s = true -> test pat (a ++ s) = true.
Proof.
  intros H. induction a as [| c a IH]; [exact H |].
  change (String c a ++ s)%string with (String c (a ++ s)).
  cbn [test]. rewrite IH. apply orb_true_r.
Qed.

Lemma flagged_inside (a u b : string) :
  isSuspiciousUrl u = true -> isSuspiciousUrl (a ++ u ++ b) = true.
Proof.
  intros H. unfold isSuspiciousUrl in *.
  apply existsb_exists in H as (pat & Hin & Hpat).
  apply existsb_exists. exists pat. split; [exact Hin |].
  apply test_app_l. now apply test_app_r.
Qed.

(** X2. The check looks for its patterns anywhere in the string and ignores
    case: a string that embeds a flagged string is flagged, whatever
    surrounds it. *)
Theorem isSuspiciousUrl_embedding :
  forall (before url after : string),
    isSuspiciousUrl url = true ->
    isSuspiciousUrl (before ++ url ++ after) = true.
Proof. intros a u b. apply flagged_inside. Qed.

Lemma isSuspiciousUrl_embedding_witness :
  isSuspiciousUrl ("https://" ++ "T.Co" ++ "/x") = true.
Proof.
  apply (isSuspiciousUrl_embedding "https://" "T.Co" "/x"). reflexivity.
Defined.

(** X3. With no [DEFAULT_DOMAIN] configured (unset or empty), the short link
    of every record is itself flagged by the check: its host is [short.ly]. *)
Theorem own_short_links_are_flagged :
  forall (u : Url),
    isSuspiciousUrl (UrlVirtuals.shortUrl None u) = true
    /\ isSuspiciousUrl (UrlVirtuals.shortUrl (Some "") u) = true.
Proof.
  intros u.
  assert (H : isSuspiciousUrl ("https://" ++ "short.ly" ++ "/" ++ shortCode u) = true)
    by (apply flagged_inside; reflexivity).
  split; exact H.
Qed.

End SuspiciousFacts.

(* ================================================================== *)
(** ** Further facts: the generation loop, candidate by candidate *)
(* ================================================================== *)

Module CandidateFacts.
Import Routes Candidates.

Lemma advance_advance n m w : advance n (advance m w) = advance (n + m) w.
Proof.
  unfold advance, set_rng. cbn. now rewrite Nat.add_assoc.
Qed.

(** [generateShortCode]'s loop, in closed form. *)
Lemma generateShortCode_loop_closed (n : nat) :
  forall result w,
    UrlUtils.generateShortCode_loop n result w
    = (Val (code_from (random (rng w)) (drawn (rng w)) n result), advance n w).
Proof.
  induction n as [| n IH]; intros result w.
  - cbn. unfold ret, advance, set_rng. destruct w as [? ? ? []]. reflexivity.
  - cbn [UrlUtils.generateShortCode_loop code_from].
    assert (Hdraw : UrlUtils.Math_random w
                    = (Val (random (rng w) (drawn (rng w))), advance 1 w))
      by reflexivity.
    unfold bind. rewrite Hdraw, IH, advance_advance, Nat.add_1_r. reflexivity.
Qed.

Lemma generateShortCode_closed w :
  UrlUtils.generateShortCode UrlUtils.default_length w
  = (Val (code_from (random (rng w)) (drawn (rng w)) UrlUtils.default_length ""),
     advance 6 w).
Proof. apply generateShortCode_loop_closed. Qed.

Lemma at_iter_0 w : at_iter w 0 = w.
Proof.
  unfold at_iter. cbn. rewrite app_nil_r. destruct w as [? ? ? []]. reflexivity.
Qed.

Lemma at_iter_step w k :
  log_findOne (candidate w k) (advance 6 (at_iter w k)) = at_iter w (S k).
Proof.
  unfold log_findOne, advance, at_iter, set_rng. cbn [urls findOne_log next_id rng
    random drawn entropy consumed].
  rewrite seq_S, map_app, app_assoc. cbn [map Nat.add].
  do 2 f_equal. lia.
Qed.

Lemma candidate_at_iter w k :
  code_from (random (rng (at_iter w k))) (drawn (rng (at_iter w k)))
            UrlUtils.default_length ""
  = candidate w k.
Proof. reflexivity. Qed.

(** The loop from its [k]th iteration on, [m] lookups away from the budget. *)
Lemma generate_loop_scan (w : World) (m : nat) :
  forall k fuel,
    (k + m = 9)%nat -> (m < fuel)%nat ->
    generate_loop fuel (Z.of_nat k) (at_iter w k)
    = match scan w k m with
      | Some j => (Val (candidate w j), at_iter w (S j))
      | None => (Return generation_exhausted, advance 6 (at_iter w 9))
      end.
Proof.
  induction m as [| m IH]; intros k fuel Hk Hfuel;
    (destruct fuel as [| fuel]; [lia |]); cbn [generate_loop scan].
  - rewrite (RouteFacts.bind_val _ _ _ _ _ (generateShortCode_closed _)).
    unfold maxAttempts. destruct (Z.leb_spec 10 (Z.of_nat k + 1)); [| lia].
    replace k with 9%nat by lia. reflexivity.
  - rewrite (RouteFacts.bind_val _ _ _ _ _ (generateShortCode_closed _)).
    unfold maxAttempts. destruct (Z.leb_spec 10 (Z.of_nat k + 1)); [lia |].
    rewrite candidate_at_iter.
    unfold bind, Store.findOne_shortCode. rewrite at_iter_step.
    change (urls (advance 6 (at_iter w k))) with (urls w).
    unfold taken.
    destruct (find (Store.has_shortCode (candidate w k)) (urls w)) eqn:Hfind.
    + assert (Hex : existsb (Store.has_shortCode (candidate w k)) (urls w) = true).
      { destruct (existsb _ _) eqn:Hex; [reflexivity |].
        apply RouteFacts.find_none_existsb in Hex. congruence. }
      rewrite Hex. replace (Z.of_nat k + 1) with (Z.of_nat (S k)) by lia.
      apply IH; lia.
    + apply RouteFacts.find_none_existsb in Hfind. rewrite Hfind. reflexivity.
Qed.

Lemma scan_none_iff w m :
  forall k, scan w k m = None
            <-> forall j, (k <= j < k + m)%nat -> taken w j = true.
Proof.
  induction m as [| m IH]; intros k; cbn [scan].
  - split; [intros _ j Hj; lia | reflexivity].
  - destruct (taken w k) eqn:Hk.
    + rewrite IH. split; intros H j Hj.
      * destruct (Nat.eq_dec j k) as [-> | Hne]; [exact Hk | apply H; lia].
      * apply H. lia.
    + split; [discriminate |]. intros H. rewrite H in Hk by lia. discriminate.
Qed.

Lemma scan_some w m :
  forall k j, scan w k m = Some j ->
              (k <= j < k + m)%nat /\ taken w j = false
              /\ forall i, (k <= i < j)%nat -> taken w i = true.
Proof.
  induction m as [| m IH]; intros k j; cbn [scan]; [discriminate |].
  destruct (taken w k) eqn:Hk.
  - intros H. destruct (IH _ _ H) as (Hr & Hf & Hb).
    split; [lia |]. split; [exact Hf |]. intros i Hi.
    destruct (Nat.eq_dec i k) as [-> | Hne]; [exact Hk | apply Hb; lia].
  - intros [= <-]. split; [lia |]. split; [exact Hk |]. intros i Hi. lia.
Qed.

(** The generation loop as the handler starts it. *)
Lemma generate_loop_start w :
  generate_loop (Z.to_nat maxAttempts) 0 w
  = match scan w 0 9 with
    | Some j => (Val (candidate w j), at_iter w (S j))
    | None => (Return generation_exhausted, advance 6 (at_iter w 9))
    end.
Proof.
  rewrite <- (generate_loop_scan w 9 0 (Z.to_nat maxAttempts));
    [| reflexivity | cbn; lia].
  now rewrite at_iter_0.
Qed.

Lemma pick_alnum r : UrlUtils.all_chars UrlUtils.alnum (pick r) = true.
Proof.
  unfold pick, JS.charAt.
  destruct (_ <? 0); [reflexivity |].
  destruct (String.get _ UrlUtils.chars) as [c |] eqn:Hget; [| reflexivity].
  cbn. rewrite andb_true_r.
  destruct (Nat.lt_ge_cases (Z.to_nat (JS.Math_floor
             (JS.fmul_int r (Z.of_nat (String.length UrlUtils.chars))))) 62)
    as [Hlt | Hge].
  - destruct (GeneratorFacts.chars_get _ Hlt) as (c' & Hc' & Hal). congruence.
  - exfalso. revert Hget Hge. generalize (Z.to_nat (JS.Math_floor
             (JS.fmul_int r (Z.of_nat (String.length UrlUtils.chars))))).
    intros n Hget Hge.
    assert (Hnone : String.get n UrlUtils.chars = None).
    { clear Hget. do 62 (destruct n as [| n]; [lia |]). reflexivity. }
    congruence.
Qed.

Lemma code_from_alnum random n :
  forall start result,
    UrlUtils.all_chars UrlUtils.alnum result = true ->
    UrlUtils.all_chars UrlUtils.alnum (code_from random start n result) = true.
Proof.
  induction n as [| n IH]; intros start result H; [exact H |].
  cbn [code_from]. apply IH.
  now rewrite GeneratorFacts.all_chars_append, H, pick_alnum.
Qed.

Lemma candidate_trim w k : JS.trim (candidate w k) = candidate w k.
Proof. apply RouteFacts.trim_alnum. now apply code_from_alnum. Qed.

End CandidateFacts.

(* ================================================================== *)
(** ** Further facts: what [POST /shorten] does to the collection *)
(* ================================================================== *)

Module ShortenFacts.
Import Routes Candidates MoreRoutes.

Section WithValidators.

Variable isURL : string -> bool.
Variable URL_protocol : string -> option string.

(** The rest of the handler after the code [c] was picked in [wa]. *)
Lemma shorten_tail (now : Date) (req : ShortenRequest) c w wa (m : M string) :
  m w = (Val c, wa) ->
  try_catch
    (shortCode <- m ;;
     url <- Store.construct now
              {| Store.d_originalUrl := b_originalUrl req;
                 Store.d_shortCode := shortCode;
                 Store.d_customCode := JS.truthy_str (b_customCode req);
                 Store.d_userId := req_user req;
                 Store.d_title := b_title req;
                 Store.d_description := b_description req;
                 Store.d_expiresAt := b_expiresAt req;
                 Store.d_maxClicks := b_maxClicks req;
                 Store.d_tags := match b_tags req with Some t => t | None => [] end |} ;;
     url <- Store.save_new now url ;;
     ret (json 201 true "URL shortened successfully" (Some url)))
    (json 500 false "Server error during URL shortening" None) w
  = save_created now req c wa.
Proof.
  intros Hm. unfold try_catch. rewrite (RouteFacts.bind_val _ _ _ _ _ Hm).
  unfold bind, Store.construct, Store.save_new, ret, save_created.
  cbn [Store.d_originalUrl Store.d_shortCode Store.d_customCode Store.d_userId
       Store.d_title Store.d_description Store.d_expiresAt Store.d_maxClicks
       Store.d_tags UrlModel.set_updatedAt _id originalUrl shortCode customCode
       userId clicks maxClicks expiresAt isActive title description tags
       clickHistory createdAt updatedAt urls bump_id].
  fold (created now req c (next_id wa)).
  destruct (Store.validate _); cbn [negb andb]; [| reflexivity].
  destruct (existsb _ _); reflexivity.
Qed.

Lemma shorten_tail_return r w wa (m : M string) (k : string -> M Response) fb :
  m w = (Return r, wa) ->
  try_catch (shortCode <- m ;; k shortCode) fb w = (Some r, wa).
Proof.
  intros Hm. unfold try_catch. now rewrite (RouteFacts.bind_return _ _ _ _ _ Hm).
Qed.

(** [POST /shorten] without a custom code, once the request passed both
    checks: the first free candidate among the first nine is saved. *)
Lemma shorten_generated_run now req w :
  b_customCode req = None ->
  validationResult isURL req = true ->
  UrlUtils.isValidUrl URL_protocol (b_originalUrl req) = true ->
  Routes.shorten isURL URL_protocol now req w
  = match scan w 0 9 with
    | Some j => save_created now req (candidate w j) (at_iter w (S j))
    | None => (Some generation_exhausted, advance 6 (at_iter w 9))
    end.
Proof.
  intros Hc Hv Hu.
  unfold Routes.shorten, shorten_with, shorten_body. rewrite Hv, Hu, Hc.
  cbn [negb pick_shortCode].
  pose proof (CandidateFacts.generate_loop_start w) as Hloop.
  destruct (scan w 0 9) as [j |].
  - rewrite <- Hc. apply shorten_tail. exact Hloop.
  - eapply shorten_tail_return. exact Hloop.
Qed.




(** [POST /shorten] with a custom code, once the request passed both
    checks. *)
Lemma shorten_custom_run now req c w :
  b_customCode req = Some c ->
  validationResult isURL req = true ->
  UrlUtils.isValidUrl URL_protocol (b_originalUrl req) = true ->
  Routes.shorten isURL URL_protocol now req w
  = if existsb (Store.has_shortCode c) (urls w)
    then (Some (json 400 false "Custom code is already taken" None),
          log_findOne c w)
    else save_created now req c (log_findOne c w).
Proof.
  intros Hc Hv Hu.
  pose proof (RouteFacts.validation_custom isURL req c Hc Hv) as Ht.
  pose proof (RouteFacts.pick_custom (Z.to_nat maxAttempts) c w Ht) as Hpick.
  unfold Routes.shorten, shorten_with, shorten_body. rewrite Hv, Hu, Hc.
  cbn [negb]. rewrite <- Hc.
  destruct (find (Store.has_shortCode c) (urls w)) eqn:Hfind.
  - assert (Hex : existsb (Store.has_shortCode c) (urls w) = true).
    { destruct (existsb _ _) eqn:Hex; [reflexivity |].
      apply RouteFacts.find_none_existsb in Hex. congruence. }
    rewrite Hex. eapply shorten_tail_return. rewrite Hc. exact Hpick.
  - apply RouteFacts.find_none_existsb in Hfind. rewrite Hfind.
    apply shorten_tail. rewrite Hc. exact Hpick.
Qed.

Lemma save_created_effect now req c wa :
  let r := save_created now req c wa in
  (urls (snd r) = urls wa
   \/ exists doc,
        urls (snd r) = urls wa ++ [doc]
        /\ fst r = Some (json 201 true "URL shortened successfully" (Some doc))
        /\ doc = created now req c (next_id wa)
        /\ existsb (Store.has_shortCode (shortCode doc)) (urls wa) = false)
  /\ next_id (snd r) = N.succ (next_id wa)
  /\ findOne_log (snd r) = findOne_log wa
  /\ rng (snd r) = rng wa.
Proof.
  unfold save_created. cbv zeta.
  destruct (Store.validate _); cbn [andb].
  - destruct (existsb _ _) eqn:Hex; cbn [negb fst snd urls set_urls bump_id next_id
                                          findOne_log rng].
    + repeat split. now left.
    + repeat split. right. eexists. repeat split. exact Hex.
  - cbn. repeat split. now left.
Qed.

(** X4. Without a custom code, on a request that passes validation, the
    handler answers "unable to generate" exactly when the first nine
    candidates are all taken, after nine lookups and sixty draws; and when it
    creates a record, the code is the first free candidate among the first
    nine, each earlier one having been looked up once. *)
Theorem generation_follows_first_free_candidate :
  forall (now : Date) (req : ShortenRequest) (w : World),
    b_customCode req = None ->
    validationResult isURL req = true ->
    UrlUtils.isValidUrl URL_protocol (b_originalUrl req) = true ->
    (fst (Routes.shorten isURL URL_protocol now req w) = Some generation_exhausted
     <-> forall k, (k < 9)%nat -> taken w k = true)
    /\ ((forall k, (k < 9)%nat -> taken w k = true) ->
        snd (Routes.shorten isURL URL_protocol now req w) = advance 6 (at_iter w 9))
    /\ (forall message url w1,
          Routes.shorten isURL URL_protocol now req w
          = (Some (json 201 true message (Some url)), w1) ->
          exists j, (j < 9)%nat
                    /\ shortCode url = candidate w j
                    /\ taken w j = false
                    /\ (forall i, (i < j)%nat -> taken w i = true)
                    /\ findOne_log w1
                       = findOne_log w ++ map (candidate w) (seq 0 (S j))).
Proof.
  intros now req w Hc Hv Hu.
  rewrite (shorten_generated_run now req w Hc Hv Hu).
  destruct (scan w 0 9) as [j |] eqn:Hscan.
  - destruct (CandidateFacts.scan_some _ _ _ _ Hscan) as (Hj & Hfree & Hbefore).
    split; [| split].
    + split.
      * unfold save_created. cbv zeta.
        destruct (_ && _); cbn; intros [=].
      * intros Hall. rewrite Hall in Hfree by lia. discriminate.
    + intros Hall. rewrite Hall in Hfree by lia. discriminate.
    + intros message url w1 Hrun. exists j.
      unfold save_created in Hrun. cbv zeta in Hrun.
      destruct (_ && _); [| discriminate].
      injection Hrun as _ <- <-.
      cbn [shortCode created]. rewrite CandidateFacts.candidate_trim.
      repeat split; [lia | exact Hfree | intros i Hi; apply Hbefore; lia].
  - pose proof (proj1 (CandidateFacts.scan_none_iff w 9 0) Hscan) as Hall.
    split; [| split].
    + split; [intros _ k Hk; apply Hall; lia | reflexivity].
    + reflexivity.
    + intros message url w1 [=].
Qed.



Lemma shorten_effect :
  forall (now : Date) (req : ShortenRequest) (w : World),
    (urls (snd (Routes.shorten isURL URL_protocol now req w)) = urls w
     \/ exists doc,
          urls (snd (Routes.shorten isURL URL_protocol now req w)) = urls w ++ [doc]
          /\ fst (Routes.shorten isURL URL_protocol now req w)
             = Some (json 201 true "URL shortened successfully" (Some doc))
          /\ _id doc = next_id w
          /\ next_id (snd (Routes.shorten isURL URL_protocol now req w))
             = N.succ (next_id w)
          /\ existsb (Store.has_shortCode (shortCode doc)) (urls w) = false
          /\ clicks doc = 0 /\ clickHistory doc = [] /\ isActive doc = true)
    /\ (next_id w <= next_id (snd (Routes.shorten isURL URL_protocol now req w)))%N
    /\ (validationResult isURL req
        && UrlUtils.isValidUrl URL_protocol (b_originalUrl req) = false ->
        snd (Routes.shorten isURL URL_protocol now req w) = w
        /\ option_map status_of (fst (Routes.shorten isURL URL_protocol now req w))
           = Some 400).
Proof.
  intros now req w.
  assert (Hsave : forall c wa r,
             urls wa = urls w -> next_id wa = next_id w ->
             r = save_created now req c wa ->
             (urls (snd r) = urls w
              \/ exists doc,
                   urls (snd r) = urls w ++ [doc]
                   /\ fst r = Some (json 201 true "URL shortened successfully" (Some doc))
                   /\ _id doc = next_id w
                   /\ next_id (snd r) = N.succ (next_id w)
                   /\ existsb (Store.has_shortCode (shortCode doc)) (urls w) = false
                   /\ clicks doc = 0 /\ clickHistory doc = [] /\ isActive doc = true)
             /\ (next_id w <= next_id (snd r))%N).
  { intros c wa r Hu Hi ->.
    destruct (save_created_effect now req c wa) as (Hcases & Hnext & _).
    cbv zeta in Hcases, Hnext. rewrite Hu, Hi in *. split; [| lia].
    destruct Hcases as [Hsame | (doc & Hurls & Hresp & -> & Hfree)]; [now left |].
    right. exists (created now req c (next_id w)).
    repeat split; try assumption; reflexivity. }
  destruct (validationResult isURL req) eqn:Hv.
  2: { unfold Routes.shorten, shorten_with, try_catch, shorten_body.
       rewrite Hv. cbn. split; [now left |]. split; [lia |]. intros _. now split. }
  destruct (UrlUtils.isValidUrl URL_protocol (b_originalUrl req)) eqn:Hu.
  2: { unfold Routes.shorten, shorten_with, try_catch, shorten_body.
       rewrite Hv, Hu. cbn. split; [now left |]. split; [lia |]. intros _.
       now split. }
  cbn [andb]. destruct (b_customCode req) as [c |] eqn:Hc.
  - rewrite (shorten_custom_run now req c w Hc Hv Hu).
    destruct (existsb (Store.has_shortCode c) (urls w)).
    + cbn [fst snd urls log_findOne next_id].
      split; [now left |]. split; [lia | intros [=]].
    + destruct (Hsave c (log_findOne c w) _ eq_refl eq_refl eq_refl) as [H1 H2].
      split; [exact H1 |]. split; [exact H2 | intros [=]].
  - rewrite (shorten_generated_run now req w Hc Hv Hu).
    destruct (scan w 0 9) as [j |].
    + destruct (Hsave (candidate w j) (at_iter w (S j)) _ eq_refl eq_refl eq_refl)
        as [H1 H2].
      split; [exact H1 |]. split; [exact H2 | intros [=]].
    + cbn [fst snd urls advance set_rng at_iter next_id].
      split; [now left |]. split; [lia | intros [=]].
Qed.


End WithValidators.

Lemma generation_follows_first_free_candidate_witness :
  taken Samples.crowded_world 8 = true.
Proof.
  apply (proj1 (proj1 (generation_follows_first_free_candidate
                         Samples.sample_isURL Samples.sample_protocol 5
                         Samples.plain_request Samples.crowded_world
                         eq_refl eq_refl eq_refl))).
  - vm_compute. reflexivity.
  - lia.
Defined.




End ShortenFacts.

(* ================================================================== *)
(** ** Further facts: visits *)
(* ================================================================== *)

Module VisitFacts.
Import Routes MoreRoutes Invariants.

(** [GET /:shortCode], case by case. *)
Lemma get_shortCode_cases now req w :
  get_shortCode now req w
  = match find (Store.has_shortCode (p_shortCode req)) (urls w) with
    | None => (Some (json 404 false "Short URL not found" None),
               log_findOne (p_shortCode req) w)
    | Some u =>
        if UrlModel.isAccessible now u
        then (Some (redirect 302 (originalUrl u)),
              set_urls (replace_doc (visited now req u) (urls w))
                       (log_findOne (p_shortCode req) w))
        else (Some (json 410 false (gone_message now u) None),
              log_findOne (p_shortCode req) w)
    end.
Proof.
  unfold get_shortCode, try_catch, redirect_body, bind, Store.findOne_shortCode.
  destruct (find _ (urls w)) as [u |]; [| reflexivity].
  destruct (UrlModel.isAccessible now u); [| reflexivity].
  cbn [negb]. unfold Store.save, ret. cbn [urls log_findOne].
  fold (visited now req u). unfold replace_doc.
  destruct (UrlFacts.addClick_frame now (clickData_of req) u) as (_ & Ho & _).
  unfold visited at 1. cbn [UrlModel.set_updatedAt originalUrl]. now rewrite Ho.
Qed.

Lemma visited_frame now req u :
  _id (visited now req u) = _id u
  /\ originalUrl (visited now req u) = originalUrl u
  /\ shortCode (visited now req u) = shortCode u
  /\ userId (visited now req u) = userId u
  /\ maxClicks (visited now req u) = maxClicks u
  /\ expiresAt (visited now req u) = expiresAt u
  /\ isActive (visited now req u) = isActive u.
Proof. apply (UrlFacts.addClick_frame now (clickData_of req) u). Qed.

Lemma visited_clicks now req u : clicks (visited now req u) = clicks u + 1.
Proof. apply (UrlFacts.addClick_clicks now (clickData_of req) u). Qed.

Lemma visited_history now req u :
  clickHistory (visited now req u)
  = JS.slice_last 100
      (clickHistory u ++ [UrlModel.click_entry now (clickData_of req)]).
Proof. apply (UrlFacts.addClick_history now (clickData_of req) u). Qed.

(** Equal keys in a duplicate-free column name the same document. *)
Lemma NoDup_map_eq {A B} (f : A -> B) (l : list A) a b :
  NoDup (map f l) -> In a l -> In b l -> f a = f b -> a = b.
Proof.
  induction l as [| x l IH]; intros Hnd Ha Hb Hf; [destruct Ha |].
  cbn in Hnd. inversion Hnd as [| ? ? Hnot Hnd']; subst.
  destruct Ha as [-> | Ha], Hb as [-> | Hb].
  - reflexivity.
  - elim Hnot. rewrite Hf. now apply in_map.
  - elim Hnot. rewrite <- Hf. now apply in_map.
  - now apply IH.
Qed.

(** Under unique ids, saving [u'] in place of [u] changes that one entry. *)
Lemma replace_doc_split u u' l :
  NoDup (map _id l) -> In u l -> _id u' = _id u ->
  exists l1 l2, l = l1 ++ u :: l2 /\ replace_doc u' l = l1 ++ u' :: l2.
Proof.
  intros Hnd Hin Hid.
  destruct (in_split _ _ Hin) as (l1 & l2 & ->).
  exists l1, l2. split; [reflexivity |].
  assert (Hother : forall d, In d (l1 ++ l2) -> (_id d =? _id u')%N = false).
  { intros d Hd. apply N.eqb_neq. intros Heq.
    rewrite map_app in Hnd. cbn [map] in Hnd.
    apply NoDup_remove_2 in Hnd. apply Hnd.
    rewrite <- map_app, <- Hid, <- Heq. now apply in_map. }
  unfold replace_doc. rewrite map_app. cbn [map].
  rewrite Hid, N.eqb_refl, <- Hid. f_equal; [| f_equal].
  - rewrite <- (map_id l1) at 2. apply map_ext_in. intros d Hd.
    rewrite Hother; [reflexivity | apply in_or_app; now left].
  - rewrite <- (map_id l2) at 2. apply map_ext_in. intros d Hd.
    rewrite Hother; [reflexivity | apply in_or_app; now right].
Qed.

Lemma find_code_split c l1 u u' l2 :
  NoDup (map shortCode (l1 ++ u :: l2)) ->
  shortCode u = c -> shortCode u' = c ->
  find (Store.has_shortCode c) (l1 ++ u' :: l2) = Some u'.
Proof.
  intros Hnd Hu Hu'.
  assert (Hself : Store.has_shortCode c u' = true)
    by (unfold Store.has_shortCode; rewrite Hu'; apply String.eqb_refl).
  induction l1 as [| d l1 IH]; cbn [app find].
  - now rewrite Hself.
  - cbn [app map] in Hnd. inversion Hnd as [| ? ? Hnot Hnd']; subst.
    destruct (Store.has_shortCode (shortCode u) d) eqn:Hd.
    + elim Hnot. apply String.eqb_eq in Hd. rewrite Hd.
      apply in_map. apply in_elt.
    + now apply IH.
Qed.

Lemma wf_ext w w' :
  urls w' = urls w -> next_id w' = next_id w -> wf w -> wf w'.
Proof.
  unfold wf, unique_codes, unique_ids, ids_below. intros -> ->. exact id.
Qed.

Lemma record_ok_visited now req u : record_ok u -> record_ok (visited now req u).
Proof.
  intros (Hc & Hl & Hle). unfold record_ok.
  rewrite visited_clicks, visited_history, UrlFacts.slice_last_length, length_app.
  cbn [List.length]. repeat split; lia.
Qed.

(** One visit that finds an accessible record. *)
Lemma visit_served now req w u :
  unique_ids w ->
  find (Store.has_shortCode (p_shortCode req)) (urls w) = Some u ->
  UrlModel.isAccessible now u = true ->
  exists l1 l2,
    urls w = l1 ++ u :: l2
    /\ get_shortCode now req w
       = (Some (redirect 302 (originalUrl u)),
          set_urls (l1 ++ visited now req u :: l2)
                   (log_findOne (p_shortCode req) w)).
Proof.
  intros Hids Hfind Hacc.
  destruct (visited_frame now req u) as (Hid & _).
  destruct (replace_doc_split u (visited now req u) (urls w) Hids
              (proj1 (find_some _ _ Hfind)) Hid) as (l1 & l2 & Hsplit & Hrep).
  exists l1, l2. split; [exact Hsplit |].
  now rewrite get_shortCode_cases, Hfind, Hacc, Hrep.
Qed.

Lemma or_else_nonempty a d : d <> "" -> JS.or_else a d <> "".
Proof.
  intros Hd. unfold JS.or_else. destruct a as [[| c s] |]; cbn;
    [exact Hd | discriminate | exact Hd].
Qed.

(** X8. A served visit changes the visited record and nothing else in the
    collection (ids being unique): the record keeps its place, its counter
    grows by one and its history receives one entry stamped with the instant
    of the visit, in which user agent, referer, country and city are never
    empty; every other field of the record is as before. *)
Theorem served_visit_changes_one_record :
  forall (now : Date) (req : RedirectRequest) (w : World) (u : Url),
    unique_ids w ->
    find (Store.has_shortCode (p_shortCode req)) (urls w) = Some u ->
    UrlModel.isAccessible now u = true ->
    exists l1 l2 u' entry,
      urls w = l1 ++ u :: l2
      /\ get_shortCode now req w
         = (Some (redirect 302 (originalUrl u)),
            set_urls (l1 ++ u' :: l2) (log_findOne (p_shortCode req) w))
      /\ clicks u' = clicks u + 1
      /\ clickHistory u' = JS.slice_last 100 (clickHistory u ++ [entry])
      /\ timestamp entry = now
      /\ country entry <> "" /\ city entry <> ""
      /\ (exists ua, userAgent entry = Some ua /\ ua <> "")
      /\ (exists r, referer entry = Some r /\ r <> "")
      /\ _id u' = _id u /\ originalUrl u' = originalUrl u
      /\ shortCode u' = shortCode u /\ userId u' = userId u
      /\ maxClicks u' = maxClicks u /\ expiresAt u' = expiresAt u
      /\ isActive u' = isActive u.
Proof.
  intros now req w u Hids Hfind Hacc.
  destruct (visit_served now req w u Hids Hfind Hacc) as (l1 & l2 & Hsplit & Hrun).
  exists l1, l2, (visited now req u),
    (UrlModel.click_entry now (clickData_of req)).
  split; [exact Hsplit |]. split; [exact Hrun |].
  split; [apply visited_clicks |]. split; [apply visited_history |].
  split; [reflexivity |].
  split; [apply or_else_nonempty; discriminate |].
  split; [apply or_else_nonempty; discriminate |].
  split; [eexists; split; [reflexivity | apply or_else_nonempty; discriminate] |].
  split; [eexists; split; [reflexivity | apply or_else_nonempty; discriminate] |].
  apply visited_frame.
Qed.

Lemma served_visit_changes_one_record_witness :
  exists w',
    get_shortCode 9 (Samples.visit "abc123") MoreSamples.limited_world
    = (Some (redirect 302 Samples.long_url), w')
    /\ map clicks (urls w') = [0; 2].
Proof.
  destruct (served_visit_changes_one_record 9 (Samples.visit "abc123")
              MoreSamples.limited_world
              (UrlModel.set_clicks 1 (Samples.limited 3)))
    as (l1 & l2 & u' & entry & Hsplit & Hrun & _).
  - unfold unique_ids. cbn.
    repeat constructor; cbn; intuition discriminate.
  - reflexivity.
  - reflexivity.
  - eexists. split; [vm_compute; reflexivity | vm_compute; reflexivity].
Defined.

Lemma unique_after_visit now req w u l1 l2 :
  unique_codes w -> unique_ids w ->
  urls w = l1 ++ u :: l2 ->
  NoDup (map shortCode (l1 ++ visited now req u :: l2))
  /\ NoDup (map _id (l1 ++ visited now req u :: l2)).
Proof.
  unfold unique_codes, unique_ids. intros Hc Hi Hs. rewrite Hs in Hc, Hi.
  destruct (visited_frame now req u) as (Hid & _ & Hcode & _).
  rewrite !map_app in *. cbn [map] in *. now rewrite Hid, Hcode.
Qed.

(** X9. A record with a click limit [N] serves exactly the visits that are
    left on it: of [n] successive visits made before its expiry, the first
    [min n (N - clicks)] are redirected and every later one is answered 410
    with the click-limit reason; afterwards the counter is
    [min (clicks + n) N], never above the limit. *)
Theorem visits_stop_at_the_click_limit :
  forall (rs : list (Date * RedirectRequest)) (c : string) (N : Z)
         (w : World) (u : Url),
    unique_codes w -> unique_ids w ->
    find (Store.has_shortCode c) (urls w) = Some u ->
    maxClicks u = Some N -> 0 < N -> 0 <= clicks u <= N ->
    isActive u = true ->
    Forall (fun r => p_shortCode (snd r) = c
                     /\ UrlModel.isExpired (fst r) u = false) rs ->
    let served := Nat.min (List.length rs) (Z.to_nat (N - clicks u)) in
    exists u',
      fst (visits rs w)
      = repeat (Some (redirect 302 (originalUrl u))) served
        ++ repeat (Some (json 410 false
                     "This short URL has reached its maximum click limit" None))
                  (List.length rs - served)
      /\ find (Store.has_shortCode c) (urls (snd (visits rs w))) = Some u'
      /\ clicks u' = Z.min (clicks u + Z.of_nat (List.length rs)) N.
Proof.
  induction rs as [| [now req] rs IH]; intros c N w u Hcodes Hids Hfind Hmax HN Hcl
    Hact Hall.
  - exists u. cbn [visits fst snd List.length Nat.min repeat app Nat.sub].
    repeat split; [exact Hfind | cbn [Z.of_nat]; lia].
  - inversion Hall as [| ? ? Hhead Hall']; subst.
    destruct Hhead as [Hreq Hexp]. cbn [fst snd] in Hreq, Hexp. subst c.
    cbn [visits List.length].
    assert (Hacc : UrlModel.isAccessible now u = (clicks u <? N)).
    { unfold UrlModel.isAccessible, UrlModel.hasReachedMaxClicks, JS.truthy_num.
      rewrite Hact, Hexp, Hmax. destruct (Z.eqb_spec N 0); [lia |].
      cbn [negb andb]. now rewrite Z.leb_antisym, negb_involutive. }
    destruct (Z.ltb_spec (clicks u) N) as [Hlt | Hge].
    + destruct (visit_served now req w u Hids) as (l1 & l2 & Hsplit & Hrun);
        [exact Hfind | exact Hacc |].
      rewrite Hrun.
      destruct (unique_after_visit now req w u l1 l2 Hcodes Hids Hsplit)
        as [Hcodes' Hids'].
      destruct (visited_frame now req u) as (_ & Ho & Hcode & _ & Hm & He & Ha).
      pose proof (visited_clicks now req u) as Hcl'.
      assert (Hucode : shortCode u = p_shortCode req).
      { apply find_some in Hfind as [_ Hc]. unfold Store.has_shortCode in Hc.
        now apply String.eqb_eq. }
      set (w1 := set_urls (l1 ++ visited now req u :: l2)
                          (log_findOne (p_shortCode req) w)) in *.
      assert (Hfind' : find (Store.has_shortCode (p_shortCode req)) (urls w1)
                       = Some (visited now req u)).
      { cbn [w1 urls set_urls].
        apply (find_code_split (p_shortCode req) l1 u).
        - unfold unique_codes in Hcodes. now rewrite Hsplit in Hcodes.
        - exact Hucode.
        - now rewrite Hcode. }
      destruct (IH (p_shortCode req) N w1 (visited now req u)) as (u' & Hres & Hf & Hc');
        [exact Hcodes' | exact Hids' | exact Hfind' | congruence | exact HN | lia
         | congruence | |].
      { eapply Forall_impl; [| exact Hall']. intros r [Hr1 Hr2]. split; [exact Hr1 |].
        unfold UrlModel.isExpired in *. now rewrite He. }
      destruct (visits rs w1) as [resps w2]. cbn [fst snd] in *.
      exists u'. rewrite Hres, Ho, Hcl'.
      replace (Nat.min (S (List.length rs)) (Z.to_nat (N - clicks u)))
        with (S (Nat.min (List.length rs) (Z.to_nat (N - (clicks u + 1))))) by lia.
      cbn [repeat app Nat.sub]. repeat split; [exact Hf | lia].
    + rewrite get_shortCode_cases, Hfind, Hacc.
      assert (Hmsg : gone_message now u
                     = "This short URL has reached its maximum click limit").
      { unfold gone_message, UrlModel.hasReachedMaxClicks, JS.truthy_num.
        rewrite Hexp, Hmax.
        destruct (Z.eqb_spec N 0); [lia |]. cbn [negb].
        destruct (Z.leb_spec N (clicks u)); [reflexivity | lia]. }
      rewrite Hmsg.
      destruct (IH (p_shortCode req) N (log_findOne (p_shortCode req) w) u)
        as (u' & Hres & Hf & Hc'); try assumption.
      destruct (visits rs (log_findOne (p_shortCode req) w)) as [resps w2].
      cbn [fst snd] in *. exists u'. rewrite Hres.
      replace (Z.to_nat (N - clicks u)) with 0%nat by lia.
      rewrite !Nat.min_0_r. cbn [repeat app]. rewrite !Nat.sub_0_r.
      cbn [repeat]. repeat split; [exact Hf | lia].
Qed.

Lemma limited_world_unique :
  unique_codes MoreSamples.limited_world /\ unique_ids MoreSamples.limited_world.
Proof.
  unfold unique_codes, unique_ids. cbn.
  split; repeat constructor; cbn; intuition discriminate.
Qed.

Lemma visits_stop_at_the_click_limit_witness :
  fst (visits [(5, Samples.visit "abc123"); (6, Samples.visit "abc123");
               (7, Samples.visit "abc123")] MoreSamples.limited_world)
  = [Some (redirect 302 Samples.long_url); Some (redirect 302 Samples.long_url);
     Some (json 410 false
             "This short URL has reached its maximum click limit" None)].
Proof.
  destruct (visits_stop_at_the_click_limit
              [(5, Samples.visit "abc123"); (6, Samples.visit "abc123");
               (7, Samples.visit "abc123")] "abc123" 3
              MoreSamples.limited_world
              (UrlModel.set_clicks 1 (Samples.limited 3)))
    as (u' & Hres & _).
  - apply limited_world_unique.
  - apply limited_world_unique.
  - reflexivity.
  - reflexivity.
  - lia.
  - cbn. lia.
  - reflexivity.
  - repeat constructor.
  - exact Hres.
Defined.

(** X10. The preview route reads and never writes: it only adds its lookup
    to the log.  What it reports agrees with what a visit at the same
    instant would get: [isAccessible] true means the visit is redirected to
    the reported URL, false means it is answered 410, and a 404 preview means
    a 404 visit; [clicks] is the stored counter, not incremented. *)
Theorem preview_agrees_with_visit :
  forall (DEFAULT_DOMAIN : option string) (now : Date) (req : RedirectRequest)
         (w : World),
    snd (get_info DEFAULT_DOMAIN now (p_shortCode req) w)
    = log_findOne (p_shortCode req) w
    /\ match fst (get_info DEFAULT_DOMAIN now (p_shortCode req) w) with
       | info_ok d =>
           (exists u, find (Store.has_shortCode (p_shortCode req)) (urls w) = Some u
                      /\ i_clicks d = clicks u
                      /\ i_shortCode d = p_shortCode req)
           /\ (i_isAccessible d = true ->
               fst (get_shortCode now req w)
               = Some (redirect 302 (i_originalUrl d)))
           /\ (i_isAccessible d = false ->
               option_map status_of (fst (get_shortCode now req w)) = Some 410)
       | info_error status message =>
           status = 404
           /\ fst (get_shortCode now req w) = Some (json 404 false message None)
       end.
Proof.
  intros dom now req w. rewrite get_shortCode_cases.
  unfold get_info, Store.findOne_shortCode.
  destruct (find _ (urls w)) as [u |] eqn:Hfind; cbn [fst snd].
  - split; [reflexivity |]. split; [| split].
    + exists u. repeat split.
      apply find_some in Hfind as [_ Hc]. now apply String.eqb_eq in Hc.
    + cbn [i_isAccessible i_originalUrl]. now intros ->.
    + cbn [i_isAccessible]. now intros ->.
  - repeat split.
Qed.

Lemma preview_agrees_with_visit_witness :
  fst (get_shortCode 9 (Samples.visit "abc123") MoreSamples.limited_world)
  = Some (redirect 302 Samples.long_url).
Proof.
  pose proof (preview_agrees_with_visit None 9 (Samples.visit "abc123")
                MoreSamples.limited_world) as [_ H].
  cbn in H. destruct H as (_ & Hacc & _). apply Hacc. reflexivity.
Defined.

End VisitFacts.

(* ================================================================== *)
(** ** Further facts: deletes *)
(* ================================================================== *)

Module DeleteFacts.
Import Routes MoreRoutes Invariants.

(** [find] splits the list at the first match. *)
Lemma find_split (p : Url -> bool) l u :
  find p l = Some u ->
  exists l1 l2, l = l1 ++ u :: l2 /\ p u = true
                /\ (forall d, In d l1 -> p d = false).
Proof.
  induction l as [| x l IH]; cbn; [discriminate |].
  destruct (p x) eqn:Hx.
  - intros [= <-]. exists [], l. repeat split; [exact Hx | intros d []].
  - intros H. destruct (IH H) as (l1 & l2 & -> & Hu & Hl1).
    exists (x :: l1), l2. repeat split; [exact Hu |].
    intros d [<- | Hd]; [exact Hx | now apply Hl1].
Qed.

Lemma remove_first_split (p : Url -> bool) l1 u l2 :
  p u = true -> (forall d, In d l1 -> p d = false) ->
  Store.remove_first p (l1 ++ u :: l2) = l1 ++ l2.
Proof.
  intros Hu. induction l1 as [| x l1 IH]; intros Hl1; cbn.
  - now rewrite Hu.
  - rewrite (Hl1 x) by now left. f_equal. apply IH. intros d Hd. apply Hl1.
    now right.
Qed.

(** X11. A single delete of a record the caller owns removes that record and
    keeps every other one in place.  With unique ids a second delete of the
    same id is answered 404; with unique codes a later visit of the deleted
    record's code is answered 404. *)
Theorem delete_removes_the_record :
  forall (caller id : ObjectId) (w : World) (u : Url),
    find (Store.by_id_and_owner id caller) (urls w) = Some u ->
    exists l1 l2,
      urls w = l1 ++ u :: l2
      /\ delete_id caller id w
         = (Some (json 200 true "URL deleted successfully" None),
            set_urls (l1 ++ l2) w)
      /\ (unique_ids w ->
          delete_id caller id (set_urls (l1 ++ l2) w)
          = (Some (json 404 false "URL not found" None), set_urls (l1 ++ l2) w))
      /\ (unique_codes w ->
          forall now req,
            p_shortCode req = shortCode u ->
            fst (get_shortCode now req (set_urls (l1 ++ l2) w))
            = Some (json 404 false "Short URL not found" None)).
Proof.
  intros caller id w u Hfind.
  destruct (find_split _ _ _ Hfind) as (l1 & l2 & Hsplit & Hu & Hl1).
  exists l1, l2. split; [exact Hsplit |]. split; [| split].
  - unfold delete_id, try_catch, delete_body, bind, Store.findOneAndDelete.
    rewrite Hfind, Hsplit, (remove_first_split _ _ _ _ Hu Hl1). reflexivity.
  - intros Hids. unfold unique_ids in Hids. rewrite Hsplit in Hids.
    assert (Hnone : find (Store.by_id_and_owner id caller) (l1 ++ l2) = None).
    { apply RouteFacts.find_none_existsb. apply not_true_is_false. intros Hex.
      apply existsb_exists in Hex as (d & Hd & Hp).
      rewrite map_app in Hids. cbn [map] in Hids. apply NoDup_remove_2 in Hids.
      apply Hids. rewrite <- map_app.
      unfold Store.by_id_and_owner in Hu, Hp.
      apply andb_prop in Hu as [Hu _]. apply andb_prop in Hp as [Hp _].
      apply N.eqb_eq in Hu, Hp. rewrite Hu, <- Hp. now apply in_map. }
    unfold delete_id, try_catch, delete_body, bind, Store.findOneAndDelete.
    cbn [urls set_urls]. rewrite Hnone, (RouteFacts.remove_first_no_match _ _ Hnone).
    reflexivity.
  - intros Hcodes now req Hreq. unfold unique_codes in Hcodes.
    rewrite Hsplit in Hcodes.
    rewrite VisitFacts.get_shortCode_cases. cbn [urls set_urls].
    assert (Hnone : find (Store.has_shortCode (p_shortCode req)) (l1 ++ l2) = None).
    { apply RouteFacts.find_none_existsb. apply not_true_is_false. intros Hex.
      apply existsb_exists in Hex as (d & Hd & Hp).
      rewrite map_app in Hcodes. cbn [map] in Hcodes.
      apply NoDup_remove_2 in Hcodes. apply Hcodes. rewrite <- map_app.
      unfold Store.has_shortCode in Hp. apply String.eqb_eq in Hp.
      rewrite <- Hreq, <- Hp. now apply in_map. }
    now rewrite Hnone.
Qed.

Lemma delete_removes_the_record_witness :
  delete_id 10%N 1%N Samples.shared_world
  = (Some (json 200 true "URL deleted successfully" None),
     set_urls [Samples.doc 2%N "bob002" (Some 20%N); Samples.doc 3%N "anon03" None]
              Samples.shared_world).
Proof.
  destruct (delete_removes_the_record 10%N 1%N Samples.shared_world
              (Samples.doc 1%N "alice1" (Some 10%N)) eq_refl)
    as (l1 & l2 & Hsplit & Hrun & _).
  rewrite Hrun. f_equal. f_equal.
  destruct l1 as [| x l1]; cbn in Hsplit.
  - now injection Hsplit as <-.
  - injection Hsplit as <- Hrest.
    destruct l1 as [| y l1]; cbn in Hrest; [discriminate |].
    injection Hrest as _ Hrest.
    destruct l1 as [| z l1]; cbn in Hrest; [discriminate |].
    injection Hrest as _ Hrest. now destruct l1.
Defined.

Lemma filter_negb_idem (p : Url -> bool) l :
  filter p (filter (fun u => negb (p u)) l) = [].
Proof.
  induction l as [| u l IH]; cbn; [reflexivity |].
  destruct (p u) eqn:Hp; cbn; [exact IH | now rewrite Hp].
Qed.

Lemma filter_negb_twice (p : Url -> bool) l :
  filter (fun u => negb (p u)) (filter (fun u => negb (p u)) l)
  = filter (fun u => negb (p u)) l.
Proof.
  induction l as [| u l IH]; cbn; [reflexivity |].
  destruct (p u) eqn:Hp; cbn; [exact IH | now rewrite Hp, IH].
Qed.

Lemma filter_partition_length (p : Url -> bool) l :
  (List.length (filter p l) + List.length (filter (fun u => negb (p u)) l)
   = List.length l)%nat.
Proof.
  induction l as [| u l IH]; cbn; [reflexivity |].
  destruct (p u); cbn; lia.
Qed.

(** X12. A bulk delete with a non-empty id list removes exactly the records
    that are listed and owned by the caller; the count in its message is the
    number of records that left the collection; repeating it deletes nothing
    more.  An empty list is refused with 400 and changes nothing. *)
Theorem bulk_delete_removes_listed_own_records :
  forall (caller : ObjectId) (urlIds : list ObjectId) (w : World),
    (urlIds <> [] ->
     exists kept,
       bulk_delete caller urlIds w
       = (Some (json 200 true
                  (JS.decimal (List.length (urls w) - List.length kept)
                   ++ " URLs deleted successfully")%string None),
          set_urls kept w)
       /\ (forall u, In u kept <->
                     In u (urls w)
                     /\ ~ (In (_id u) urlIds /\ userId u = Some caller))
       /\ bulk_delete caller urlIds (set_urls kept w)
          = (Some (json 200 true "0 URLs deleted successfully" None),
             set_urls kept w))
    /\ (urlIds = [] ->
        bulk_delete caller urlIds w
        = (Some (json 400 false "Validation failed" None), w)).
Proof.
  intros caller urlIds w. split.
  - intros Hne.
    set (p := Store.in_ids_and_owner urlIds caller).
    exists (filter (fun u => negb (p u)) (urls w)).
    assert (Hlen : (List.length urlIds <? 1)%nat = false).
    { destruct urlIds; [now elim Hne | reflexivity]. }
    split; [| split].
    + unfold bulk_delete, try_catch, bulk_delete_body. rewrite Hlen.
      unfold bind, Store.deleteMany, ret. fold p.
      pose proof (filter_partition_length p (urls w)) as Hpart.
      replace (List.length (urls w)
               - List.length (filter (fun u => negb (p u)) (urls w)))%nat
        with (List.length (filter p (urls w))) by lia.
      reflexivity.
    + intros u. rewrite filter_In. unfold p, Store.in_ids_and_owner, Store.owned.
      split; intros [Hin Hp]; (split; [exact Hin |]).
      * intros [Hid Hown]. rewrite Hown, N.eqb_refl, andb_true_r in Hp.
        apply negb_true_iff in Hp.
        assert (Hex : existsb (N.eqb (_id u)) urlIds = true).
        { apply existsb_exists. exists (_id u). split; [exact Hid | apply N.eqb_refl]. }
        congruence.
      * apply negb_true_iff, not_true_is_false. intros Hboth.
        apply andb_prop in Hboth as [Hex Hown]. apply Hp. split.
        -- apply existsb_exists in Hex as (i & Hi & Heq).
           apply N.eqb_eq in Heq. now subst.
        -- destruct (userId u) as [o |]; [| discriminate].
           apply N.eqb_eq in Hown. now subst.
    + unfold bulk_delete, try_catch, bulk_delete_body. rewrite Hlen.
      unfold bind, Store.deleteMany, ret. fold p. cbn [urls set_urls].
      rewrite filter_negb_idem, filter_negb_twice. reflexivity.
  - intros ->. reflexivity.
Qed.

Lemma bulk_delete_removes_listed_own_records_witness :
  exists kept,
    bulk_delete 10%N [1%N; 2%N; 3%N] Samples.shared_world
    = (Some (json 200 true
               (JS.decimal (List.length (urls Samples.shared_world)
                            - List.length kept)
                ++ " URLs deleted successfully")%string None),
       set_urls kept Samples.shared_world).
Proof.
  destruct (bulk_delete_removes_listed_own_records 10%N [1%N; 2%N; 3%N]
              Samples.shared_world) as [Hsome _].
  destruct Hsome as (kept & Hrun & _); [discriminate |].
  exists kept. exact Hrun.
Defined.

End DeleteFacts.

(* ================================================================== *)
(** ** Further facts: the update route *)
(* ================================================================== *)

Module UpdateFacts.
Import Routes MoreRoutes Invariants.

Section WithUpdateValidators.

Variable tags_accepted : list string -> bool.

(** [PUT /:id], case by case. *)
Lemma update_id_cases now caller id b w :
  update_id tags_accepted now caller id b w
  = if negb (update_validation b)
    then (Some (json 400 false "Validation failed" None), w)
    else match find (Store.by_id_and_owner id caller) (urls w) with
         | None => (Some (json 404 false "URL not found" None), w)
         | Some _ =>
             if negb (optional tags_accepted (u_tags b))
             then (Some (json 500 false "Server error during URL update" None), w)
             else (Some (json 200 true "URL updated successfully"
                           (option_map (apply_update now b)
                                       (find (has_id id) (urls w)))),
                   set_urls (update_first (has_id id) (apply_update now b) (urls w)) w)
         end.
Proof.
  unfold update_id, try_catch, update_body.
  destruct (negb (update_validation b)); [reflexivity |].
  unfold bind, findOne_owned, findByIdAndUpdate.
  destruct (find _ (urls w)); [| reflexivity].
  destruct (negb (optional tags_accepted (u_tags b))); reflexivity.
Qed.

(** Under unique ids the record found for the owner is the record the update
    by id reaches. *)
Lemma owned_record_split id caller l u :
  NoDup (map _id l) ->
  find (Store.by_id_and_owner id caller) l = Some u ->
  exists l1 l2,
    l = l1 ++ u :: l2 /\ _id u = id /\ userId u = Some caller
    /\ find (has_id id) l = Some u
    /\ forall f, update_first (has_id id) f l = l1 ++ f u :: l2.
Proof.
  intros Hnd Hfind.
  destruct (DeleteFacts.find_split _ _ _ Hfind) as (l1 & l2 & -> & Hu & _).
  unfold Store.by_id_and_owner in Hu. apply andb_prop in Hu as [Hid Hown].
  apply N.eqb_eq in Hid.
  assert (Huser : userId u = Some caller).
  { unfold Store.owned in Hown. destruct (userId u) as [o |]; [| discriminate].
    apply N.eqb_eq in Hown. now subst. }
  assert (Hl1 : forall d, In d l1 -> has_id id d = false).
  { intros d Hd. apply N.eqb_neq. intros Heq.
    rewrite map_app in Hnd. cbn [map] in Hnd. apply NoDup_remove_2 in Hnd.
    apply Hnd. apply in_or_app. left. rewrite Hid, <- Heq. now apply in_map. }
  exists l1, l2. repeat split; try assumption.
  - clear Hnd Hfind. induction l1 as [| x l1 IH]; cbn.
    + unfold has_id. now rewrite Hid, N.eqb_refl.
    + rewrite (Hl1 x) by now left. apply IH. intros d Hd. apply Hl1. now right.
  - intros f. clear Hnd Hfind. induction l1 as [| x l1 IH]; cbn.
    + unfold has_id. now rewrite Hid, N.eqb_refl.
    + rewrite (Hl1 x) by now left. f_equal. apply IH. intros d Hd. apply Hl1.
      now right.
Qed.

(** X13. With unique ids, [PUT /:id] never changes a record of another
    owner or an anonymous record, whatever id and body the request carries;
    when no record has both the id and the caller as owner the answer is 404
    and nothing changes. *)
Theorem update_touches_only_own_records :
  forall (now : Date) (caller id : ObjectId) (b : UpdateRequest) (w : World),
    unique_ids w ->
    filter (Store.foreign caller)
           (urls (snd (update_id tags_accepted now caller id b w)))
    = filter (Store.foreign caller) (urls w)
    /\ (update_validation b = true ->
        find (Store.by_id_and_owner id caller) (urls w) = None ->
        update_id tags_accepted now caller id b w
        = (Some (json 404 false "URL not found" None), w)).
Proof.
  intros now caller id b w Hids. rewrite update_id_cases. split.
  - destruct (negb (update_validation b)); [reflexivity |].
    destruct (find (Store.by_id_and_owner id caller) (urls w)) as [u |] eqn:Hfind;
      [| reflexivity].
    destruct (negb (optional tags_accepted (u_tags b))); [reflexivity |].
    destruct (owned_record_split id caller (urls w) u Hids Hfind)
      as (l1 & l2 & Hsplit & _ & Hown & _ & Hupd).
    cbn [snd urls set_urls]. rewrite Hupd, Hsplit, !filter_app. f_equal.
    cbn [filter]. unfold Store.foreign, Store.owned.
    cbn [apply_update userId]. rewrite Hown, N.eqb_refl. reflexivity.
  - intros -> ->. reflexivity.
Qed.


(** X15. Once an accepted update has set [isActive] to false, a visit of the
    record's code made while the record is neither expired nor at its click
    limit is answered 410 with the deactivation reason, and no click is
    recorded. *)
Theorem deactivated_record_is_gone :
  forall (now later : Date) (caller id : ObjectId) (b : UpdateRequest)
         (req : RedirectRequest) (w : World) (u : Url),
    unique_ids w -> unique_codes w ->
    update_validation b = true ->
    optional tags_accepted (u_tags b) = true ->
    u_isActive b = Some false ->
    find (Store.by_id_and_owner id caller) (urls w) = Some u ->
    p_shortCode req = shortCode u ->
    UrlModel.isExpired later (apply_update now b u) = false ->
    UrlModel.hasReachedMaxClicks (apply_update now b u) = false ->
    get_shortCode later req (snd (update_id tags_accepted now caller id b w))
    = (Some (json 410 false "This short URL has been deactivated" None),
       log_findOne (p_shortCode req)
                   (snd (update_id tags_accepted now caller id b w))).
Proof.
  intros now later caller id b req w u Hids Hcodes Hv Ht Hoff Hfind Hreq Hexp Hmax.
  destruct (owned_record_split id caller (urls w) u Hids Hfind)
    as (l1 & l2 & Hsplit & _ & _ & Hbyid & Hupd).
  rewrite update_id_cases, Hv, Hfind, Ht, Hupd. cbn [negb snd].
  rewrite VisitFacts.get_shortCode_cases. cbn [urls set_urls].
  unfold unique_codes in Hcodes. rewrite Hsplit in Hcodes.
  rewrite (VisitFacts.find_code_split (p_shortCode req) l1 u
             (apply_update now b u) l2 Hcodes (eq_sym Hreq) (eq_sym Hreq)).
  unfold UrlModel.isAccessible, gone_message. rewrite Hexp, Hmax.
  cbn [apply_update isActive]. rewrite Hoff. reflexivity.
Qed.

End WithUpdateValidators.

Lemma shared_world_unique :
  unique_codes Samples.shared_world /\ unique_ids Samples.shared_world.
Proof.
  unfold unique_codes, unique_ids. cbn.
  split; repeat constructor; cbn; intuition discriminate.
Qed.

Lemma update_touches_only_own_records_witness :
  update_id (fun _ => true) 50 10%N 2%N MoreSamples.deactivate Samples.shared_world
  = (Some (json 404 false "URL not found" None), Samples.shared_world).
Proof.
  destruct (update_touches_only_own_records (fun _ => true) 50 10%N 2%N
              MoreSamples.deactivate Samples.shared_world
              (proj2 shared_world_unique)) as [_ Hmiss].
  apply Hmiss; reflexivity.
Defined.


Lemma deactivated_record_is_gone_witness :
  fst (get_shortCode 60 (Samples.visit "alice1")
         (snd (update_id (fun _ => true) 50 10%N 1%N MoreSamples.deactivate
                 Samples.shared_world)))
  = Some (json 410 false "This short URL has been deactivated" None).
Proof.
  rewrite (deactivated_record_is_gone (fun _ => true) 50 60 10%N 1%N
             MoreSamples.deactivate (Samples.visit "alice1") Samples.shared_world
             (Samples.doc 1%N "alice1" (Some 10%N))
             (proj2 shared_world_unique) (proj1 shared_world_unique)
             eq_refl eq_refl eq_refl eq_refl eq_refl eq_refl eq_refl).
  reflexivity.
Defined.

End UpdateFacts.

(* ================================================================== *)
(** ** Further facts: the overview numbers *)
(* ================================================================== *)

Module StatsFacts.
Import MoreRoutes Invariants.

Lemma filter_idem {A} (p : A -> bool) l : filter p (filter p l) = filter p l.
Proof.
  induction l as [| x l IH]; cbn; [reflexivity |].
  destruct (p x) eqn:Hp; cbn; [now rewrite Hp, IH | exact IH].
Qed.

Lemma Forall_filter_keep {A} (P : A -> Prop) (p : A -> bool) l :
  Forall P l -> Forall P (filter p l).
Proof.
  rewrite !Forall_forall. intros H x Hx. apply filter_In in Hx as [Hx _]. auto.
Qed.

(** Sound counters bound the stored history by the click total. *)
Lemma history_bounded_by_clicks l :
  Forall record_ok l ->
  Z.of_nat (List.length (flat_map clickHistory l)) <= sum_clicks l
  /\ (List.length (flat_map clickHistory l) <= 100 * List.length l)%nat.
Proof.
  induction 1 as [| u l (Hc & Hl & Hle) _ [IH1 IH2]]; cbn [flat_map sum_clicks
    fold_right List.length]; [split; [reflexivity | lia] |].
  rewrite length_app. fold (sum_clicks l). split; lia.
Qed.

(** X16. In the overview of a user, the active and the expired counts never
    exceed the total count, and the expired count is the number of the
    user's records that [isExpired] reports expired at that instant.  The
    numbers depend on the user's own records only.  When the counters are
    sound, the recent clicks are at most the click total and at most 100 per
    record, since only the stored history is counted. *)
Theorem overview_numbers_are_bounded :
  forall (thirty_days_before : Date -> Date) (now : Date) (userId : ObjectId)
         (w : World),
    (activeUrls (overview thirty_days_before now userId w)
     <= totalUrls (overview thirty_days_before now userId w))%nat
    /\ (expiredUrls (overview thirty_days_before now userId w)
        <= totalUrls (overview thirty_days_before now userId w))%nat
    /\ expiredUrls (overview thirty_days_before now userId w)
       = List.length (filter (UrlModel.isExpired now)
                             (filter (Store.owned userId) (urls w)))
    /\ overview thirty_days_before now userId w
       = overview thirty_days_before now userId
           (set_urls (filter (Store.owned userId) (urls w)) w)
    /\ (Forall record_ok (urls w) ->
        Z.of_nat (recentClicks (overview thirty_days_before now userId w))
        <= totalClicks (overview thirty_days_before now userId w)
        /\ (recentClicks (overview thirty_days_before now userId w)
            <= 100 * totalUrls (overview thirty_days_before now userId w))%nat).
Proof.
  intros thirty now uid w. unfold overview.
  cbn [activeUrls expiredUrls totalUrls totalClicks recentClicks urls set_urls].
  split; [apply filter_length_le |]. split; [apply filter_length_le |].
  split; [reflexivity |]. split; [now rewrite filter_idem |].
  intros Hok.
  destruct (history_bounded_by_clicks (filter (Store.owned uid) (urls w))
              (Forall_filter_keep _ _ _ Hok)) as [H1 H2].
  pose proof (filter_length_le (fun c => thirty now <=? timestamp c)
                (flat_map clickHistory (filter (Store.owned uid) (urls w)))) as Hle.
  split; lia.
Qed.

Lemma overview_numbers_are_bounded_witness :
  Z.of_nat (recentClicks (overview (fun d => d - 15) 40 10%N MoreSamples.seen_world))
  <= totalClicks (overview (fun d => d - 15) 40 10%N MoreSamples.seen_world).
Proof.
  destruct (overview_numbers_are_bounded (fun d => d - 15) 40 10%N
              MoreSamples.seen_world) as (_ & _ & _ & _ & Hsound).
  apply Hsound. repeat constructor; cbn; lia.
Defined.

End StatsFacts.

(* ================================================================== *)
(** ** Further facts: every route keeps the collection well formed *)
(* ================================================================== *)

Module InvariantFacts.
Import Routes MoreRoutes Invariants.

Lemma NoDup_map_filter {A B} (f : A -> B) (p : A -> bool) l :
  NoDup (map f l) -> NoDup (map f (filter p l)).
Proof.
  induction l as [| x l IH]; cbn; [trivial |].
  intros Hnd. inversion Hnd as [| ? ? Hnot Hnd']; subst.
  destruct (p x); [| now apply IH]. cbn. constructor; [| now apply IH].
  intros Hin. apply Hnot. apply in_map_iff in Hin as (y & Hy & Hin).
  apply filter_In in Hin as [Hin _]. rewrite <- Hy. now apply in_map.
Qed.

Lemma remove_first_incl (p : Url -> bool) l :
  forall u, In u (Store.remove_first p l) -> In u l.
Proof.
  induction l as [| x l IH]; cbn; [trivial |].
  destruct (p x); intros u Hu; [now right |].
  destruct Hu as [-> | Hu]; [now left | right; now apply IH].
Qed.

Lemma NoDup_map_remove_first {B} (f : Url -> B) (p : Url -> bool) l :
  NoDup (map f l) -> NoDup (map f (Store.remove_first p l)).
Proof.
  induction l as [| x l IH]; cbn; [trivial |].
  intros Hnd. inversion Hnd as [| ? ? Hnot Hnd']; subst.
  destruct (p x); [exact Hnd' |]. cbn. constructor; [| now apply IH].
  intros Hin. apply Hnot. apply in_map_iff in Hin as (y & Hy & Hin).
  rewrite <- Hy. apply in_map. now apply (remove_first_incl p).
Qed.

(** A collection whose records all come from a well-formed one, keys kept
    unique, is well formed under the same id counter or a later one. *)
Lemma wf_sub w l n :
  wf w -> (next_id w <= n)%N ->
  NoDup (map shortCode l) -> NoDup (map _id l) ->
  (forall u, In u l -> In u (urls w)) ->
  wf {| urls := l; findOne_log := findOne_log w; next_id := n; rng := rng w |}.
Proof.
  intros (_ & _ & Hb & Hok) Hn Hc Hi Hsub.
  unfold wf, unique_codes, unique_ids, ids_below in *. cbn [urls next_id].
  assert (Hb' : forall u, In u (urls w) -> (_id u < next_id w)%N)
    by (now apply Forall_forall).
  assert (Hok' : forall u, In u (urls w) -> record_ok u)
    by (now apply Forall_forall).
  split; [exact Hc |]. split; [exact Hi |]. split; apply Forall_forall; intros u Hu.
  - specialize (Hb' u (Hsub u Hu)). lia.
  - apply (Hok' u (Hsub u Hu)).
Qed.

Lemma wf_same w w' :
  urls w' = urls w -> (next_id w <= next_id w')%N -> wf w -> wf w'.
Proof.
  intros Hu Hn (Hc & Hi & Hb & Hok).
  unfold wf, unique_codes, unique_ids, ids_below in *. rewrite Hu.
  split; [exact Hc |]. split; [exact Hi |]. split; [| exact Hok].
  assert (Hb' : forall u, In u (urls w) -> (_id u < next_id w)%N)
    by (now apply Forall_forall).
  apply Forall_forall. intros u Hin. specialize (Hb' u Hin). lia.
Qed.

(** One record swapped for another with the same id and code. *)
Lemma wf_swap w w' l1 u u' l2 :
  wf w -> urls w = l1 ++ u :: l2 -> urls w' = l1 ++ u' :: l2 ->
  next_id w' = next_id w ->
  _id u' = _id u -> shortCode u' = shortCode u -> record_ok u' ->
  wf w'.
Proof.
  intros (Hc & Hi & Hb & Hok) Hs Hs' Hn Hid Hcode Hrec.
  unfold wf, unique_codes, unique_ids, ids_below in *.
  rewrite Hs in *. rewrite Hs', Hn.
  rewrite !map_app in *. cbn [map] in *. rewrite Hid, Hcode.
  split; [exact Hc |]. split; [exact Hi |]. split.
  - apply Forall_app in Hb as [Hb1 Hb2]. inversion Hb2; subst.
    apply Forall_app. split; [assumption |]. constructor; [now rewrite Hid | assumption].
  - apply Forall_app in Hok as [Hok1 Hok2]. inversion Hok2; subst.
    apply Forall_app. split; [assumption |]. now constructor.
Qed.

Lemma wf_append w w' doc :
  wf w -> urls w' = urls w ++ [doc] -> next_id w' = N.succ (next_id w) ->
  _id doc = next_id w ->
  existsb (Store.has_shortCode (shortCode doc)) (urls w) = false ->
  clicks doc = 0 -> clickHistory doc = [] ->
  wf w'.
Proof.
  intros (Hc & Hi & Hb & Hok) Hu Hn Hid Hfree Hcl Hh.
  unfold wf, unique_codes, unique_ids, ids_below in *. rewrite Hu, Hn.
  rewrite !map_app. cbn [map].
  assert (Hbelow : forall u, In u (urls w) -> (_id u < next_id w)%N)
    by (now apply Forall_forall).
  split; [| split; [| split]].
  - apply NoDup_app; [exact Hc | repeat constructor; intros [] |].
    intros c Hin [<- | []].
    apply in_map_iff in Hin as (d & Hd & Hin).
    assert (Hex : existsb (Store.has_shortCode (shortCode doc)) (urls w) = true).
    { apply existsb_exists. exists d. split; [exact Hin |].
      unfold Store.has_shortCode. rewrite Hd. apply String.eqb_refl. }
    congruence.
  - apply NoDup_app; [exact Hi | repeat constructor; intros [] |].
    intros i Hin [<- | []].
    apply in_map_iff in Hin as (d & Hd & Hin).
    specialize (Hbelow d Hin). rewrite Hd, Hid in Hbelow. lia.
  - apply Forall_app. split.
    + apply Forall_forall. intros u Hin. specialize (Hbelow u Hin). lia.
    + constructor; [rewrite Hid; lia | constructor].
  - apply Forall_app. split; [exact Hok |]. constructor; [| constructor].
    unfold record_ok. rewrite Hcl, Hh. cbn. lia.
Qed.

(** X17. Every route keeps the collection well formed: short codes and ids
    stay unique, the id counter stays ahead of every stored id, and each
    record keeps a non-negative counter and a history of at most 100 entries,
    never longer than the counter. *)
Theorem routes_keep_the_collection_well_formed :
  forall (isURL : string -> bool) (URL_protocol : string -> option string)
         (tags_accepted : list string -> bool)
         (DEFAULT_DOMAIN : option string) (now : Date)
         (post : ShortenRequest) (visit : RedirectRequest)
         (caller id : ObjectId) (urlIds : list ObjectId) (put : UpdateRequest)
         (w : World),
    wf w ->
    wf (snd (shorten isURL URL_protocol now post w))
    /\ wf (snd (get_shortCode now visit w))
    /\ wf (snd (get_info DEFAULT_DOMAIN now (p_shortCode visit) w))
    /\ wf (snd (delete_id caller id w))
    /\ wf (snd (bulk_delete caller urlIds w))
    /\ wf (snd (update_id tags_accepted now caller id put w)).
Proof.
  intros isURL proto tags dom now post visit caller id ids put w Hwf.
  pose proof Hwf as (Hc & Hi & Hb & Hok).
  split; [| split; [| split; [| split; [| split]]]].
  - destruct (ShortenFacts.shorten_effect isURL proto now post w)
      as (Hcases & Hnext & _).
    destruct Hcases as [Hsame | (doc & Hu & _ & Hid & Hn & Hfree & Hcl & Hh & _)].
    + now apply (wf_same w).
    + now apply (wf_append w _ doc).
  - rewrite VisitFacts.get_shortCode_cases.
    destruct (find _ (urls w)) as [u |] eqn:Hfind;
      [| apply (wf_same w); [reflexivity | cbn; lia | exact Hwf]].
    destruct (UrlModel.isAccessible now u);
      [| apply (wf_same w); [reflexivity | cbn; lia | exact Hwf]].
    destruct (VisitFacts.visited_frame now visit u) as (Hid & _ & Hcode & _).
    destruct (VisitFacts.replace_doc_split u (visited now visit u) (urls w) Hi
                (proj1 (find_some _ _ Hfind)) Hid) as (l1 & l2 & Hsplit & Hrep).
    cbn [snd].
    apply (wf_swap w _ l1 u (visited now visit u) l2 Hwf Hsplit);
      [exact Hrep | reflexivity | exact Hid | exact Hcode |].
    apply VisitFacts.record_ok_visited.
    rewrite Forall_forall in Hok. apply Hok. apply (find_some _ _ Hfind).
  - assert (Hsnd : snd (get_info dom now (p_shortCode visit) w)
                   = log_findOne (p_shortCode visit) w).
    { unfold get_info, Store.findOne_shortCode.
      now destruct (find _ (urls w)). }
    rewrite Hsnd. apply (wf_same w); [reflexivity | cbn; lia | exact Hwf].
  - unfold delete_id, try_catch, delete_body, bind, Store.findOneAndDelete.
    destruct (find _ (urls w)); cbn [snd respond ret];
      (apply (wf_sub w); [exact Hwf | lia | now apply NoDup_map_remove_first
                          | now apply NoDup_map_remove_first
                          | apply remove_first_incl]).
  - unfold bulk_delete, try_catch, bulk_delete_body.
    destruct (_ <? _)%nat; [exact Hwf |].
    unfold bind, Store.deleteMany, ret. cbn [snd].
    apply (wf_sub w); [exact Hwf | lia | now apply NoDup_map_filter
                       | now apply NoDup_map_filter |].
    intros u Hu. now apply filter_In in Hu.
  - rewrite UpdateFacts.update_id_cases.
    destruct (negb (update_validation put)); [exact Hwf |].
    destruct (find (Store.by_id_and_owner id caller) (urls w)) as [u |] eqn:Hfind;
      [| exact Hwf].
    destruct (negb (optional tags (u_tags put))); [exact Hwf |].
    destruct (UpdateFacts.owned_record_split id caller (urls w) u Hi Hfind)
      as (l1 & l2 & Hsplit & _ & _ & _ & Hupd).
    cbn [snd].
    apply (wf_swap w _ l1 u (apply_update now put u) l2 Hwf Hsplit);
      [apply Hupd | reflexivity | reflexivity | reflexivity |].
    rewrite Forall_forall in Hok. apply (Hok u).
    rewrite Hsplit. apply in_elt.
Qed.

Lemma shared_world_wf : wf Samples.shared_world.
Proof.
  destruct UpdateFacts.shared_world_unique as [Hc Hi].
  split; [exact Hc |]. split; [exact Hi |].
  split; repeat constructor; cbn; lia.
Qed.

Lemma routes_keep_the_collection_well_formed_witness :
  wf (snd (get_shortCode 9 (Samples.visit "alice1") Samples.shared_world))
  /\ wf (snd (delete_id 10%N 1%N Samples.shared_world)).
Proof.
  destruct (routes_keep_the_collection_well_formed
              Samples.sample_isURL Samples.sample_protocol (fun _ => true) None 9
              Samples.plain_request (Samples.visit "alice1") 10%N 1%N [1%N]
              MoreSamples.deactivate Samples.shared_world shared_world_wf)
    as (_ & Hvisit & _ & Hdelete & _).
  split; assumption.
Defined.

End InvariantFacts.

(* ================================================================== *)
(** ** Further facts: listing and recent clicks *)
(* ================================================================== *)

Module ListingFacts.
Import Routes MoreRoutes.

Lemma firstn_In {A} n (l : list A) x : In x (firstn n l) -> In x l.
Proof.
  intros H. rewrite <- (firstn_skipn n l). apply in_or_app. now left.
Qed.

Lemma skipn_In {A} n (l : list A) x : In x (skipn n l) -> In x l.
Proof.
  intros H. rewrite <- (firstn_skipn n l). apply in_or_app. now right.
Qed.

Lemma ceil_div_gt (page limit total : nat) :
  (1 <= limit)%nat ->
  ((page * limit < total)%nat <-> (page < ceil_div total limit)%nat).
Proof.
  intros Hl. unfold ceil_div.
  pose proof (Nat.div_mod_eq (total + limit - 1) limit) as Hdm.
  pose proof (Nat.mod_upper_bound (total + limit - 1) limit ltac:(lia)) as Hr.
  set (k := ((total + limit - 1) / limit)%nat) in *.
  set (r := ((total + limit - 1) mod limit)%nat) in *.
  split; intros H; nia.
Qed.

(** X18. One page of [GET /my-urls], when the store's ordering returns the
    matching records rearranged: the page holds [min limit (total - (page -
    1) * limit)] records, each a stored record of the caller with its click
    history left out; it is empty exactly when the page starts at or beyond
    the total; [hasNext] holds exactly when the page number is below
    [totalPages], and [hasPrev] exactly when it is above 1. *)
Theorem my_urls_page_is_consistent :
  forall (matches_search : string -> Url -> bool)
         (sort_docs : string -> bool -> list Url -> list Url),
    (forall field desc l, Permutation (sort_docs field desc l) l) ->
    forall (caller : ObjectId) (q : MyUrlsQuery) (w : World),
      let r := my_urls matches_search sort_docs caller q w in
      let page := currentPage (pagination r) in
      let limit := match q_limit q with Some l => Pos.to_nat l | None => 10%nat end in
      let total := totalUrls_listed (pagination r) in
      List.length (listed r) = Nat.min limit (total - (page - 1) * limit)
      /\ (forall d, In d (listed r) ->
                    exists u, In u (urls w) /\ userId u = Some caller
                              /\ d = without_history u)
      /\ (listed r = [] <-> (total <= (page - 1) * limit)%nat)
      /\ (hasNext (pagination r) = true
          <-> (page < totalPages (pagination r))%nat)
      /\ (hasPrev (pagination r) = true <-> (1 < page)%nat)
      /\ (1 <= page)%nat.
Proof.
  intros matches sort Hperm caller q w. cbv zeta.
  unfold my_urls. cbn [listed pagination currentPage totalPages totalUrls_listed
                       hasNext hasPrev].
  set (page := match q_page q with Some p => Pos.to_nat p | None => 1%nat end).
  set (limit := match q_limit q with Some l => Pos.to_nat l | None => 10%nat end).
  set (query := fun u => Store.owned caller u && _).
  set (found := sort _ _ (filter query (urls w))).
  assert (Hpage : (1 <= page)%nat) by (unfold page; destruct (q_page q); lia).
  assert (Hlimit : (1 <= limit)%nat) by (unfold limit; destruct (q_limit q); lia).
  assert (Hlen : List.length found = List.length (filter query (urls w)))
    by (apply Permutation_length, Hperm).
  assert (Hsize : List.length (firstn limit (skipn ((page - 1) * limit) found))
                  = Nat.min limit (List.length (filter query (urls w))
                                   - (page - 1) * limit)).
  { now rewrite length_firstn, length_skipn, Hlen. }
  split; [now rewrite length_map |]. split; [| split; [| split; [| split]]].
  - intros d Hd. apply in_map_iff in Hd as (u & <- & Hu).
    apply firstn_In, skipn_In in Hu.
    apply (Permutation_in _ (Hperm _ _ _)) in Hu.
    apply filter_In in Hu as [Hin Hq]. exists u. split; [exact Hin |].
    split; [| reflexivity].
    unfold query in Hq. apply andb_prop in Hq as [Hown _].
    unfold Store.owned in Hown. destruct (userId u) as [o |]; [| discriminate].
    apply N.eqb_eq in Hown. now subst.
  - split.
    + intros Hnil. apply (f_equal (@List.length Url)) in Hnil.
      rewrite length_map, Hsize in Hnil. cbn in Hnil. lia.
    + intros Hle.
      destruct (firstn limit (skipn ((page - 1) * limit) found)) eqn:Hl;
        [reflexivity |].
      cbn [List.length] in Hsize. lia.
  - rewrite Nat.ltb_lt. now apply ceil_div_gt.
  - apply Nat.ltb_lt.
  - exact Hpage.
Qed.

Lemma my_urls_page_is_consistent_witness :
  List.length
    (listed (my_urls (fun _ _ => true) (fun _ _ l => l) 10%N
               {| q_page := Some 1%positive; q_limit := Some 2%positive;
                  q_search := None; q_sortBy := None; q_sortOrder := None |}
               Samples.shared_world))
  = 1%nat.
Proof.
  destruct (my_urls_page_is_consistent (fun _ _ => true) (fun _ _ l => l)
              (fun _ _ l => Permutation_refl l) 10%N
              {| q_page := Some 1%positive; q_limit := Some 2%positive;
                 q_search := None; q_sortBy := None; q_sortOrder := None |}
              Samples.shared_world) as [Hlen _].
  rewrite Hlen. reflexivity.
Defined.

Lemma insert_perm c l : Permutation (insert_newest_first c l) (c :: l).
Proof.
  induction l as [| y l IH]; cbn; [reflexivity |].
  destruct (timestamp c <? timestamp y); [| reflexivity].
  rewrite IH. apply perm_swap.
Qed.

Lemma sort_perm l : Permutation (sort_newest_first l) l.
Proof.
  induction l as [| c l IH]; cbn; [reflexivity |].
  rewrite insert_perm. now constructor.
Qed.

Lemma insert_sorted c l :
  StronglySorted not_older l -> StronglySorted not_older (insert_newest_first c l).
Proof.
  induction 1 as [| y l Hs IH Hall]; cbn; [repeat constructor |].
  destruct (Z.ltb_spec (timestamp c) (timestamp y)) as [Hlt | Hge].
  - constructor; [exact IH |].
    rewrite Forall_forall in *. intros x Hx.
    apply (Permutation_in _ (insert_perm c l)) in Hx as [<- | Hx].
    + unfold not_older. lia.
    + now apply Hall.
  - constructor; [now constructor |]. constructor; [exact Hge |].
    rewrite Forall_forall in *. intros x Hx. specialize (Hall x Hx).
    unfold not_older in *. lia.
Qed.

Lemma sort_sorted l : StronglySorted not_older (sort_newest_first l).
Proof.
  induction l as [| c l IH]; cbn; [constructor | now apply insert_sorted].
Qed.

Lemma sorted_split n l :
  StronglySorted not_older l ->
  StronglySorted not_older (firstn n l)
  /\ forall c d, In c (firstn n l) -> In d (skipn n l) -> not_older c d.
Proof.
  intros Hs. revert n. induction Hs as [| y l Hs IH Hall]; intros n.
  - rewrite firstn_nil. split; [constructor | intros c d []].
  - destruct n as [| n]; [split; [constructor | intros c d []] |].
    cbn [firstn skipn]. destruct (IH n) as [IH1 IH2].
    rewrite Forall_forall in Hall. split.
    + constructor; [exact IH1 |]. apply Forall_forall. intros x Hx.
      apply Hall. now apply firstn_In in Hx.
    + intros c d [<- | Hc] Hd; [| now apply IH2].
      apply Hall. now apply skipn_In in Hd.
Qed.

(** X19. For a record the caller owns, the recent clicks of the per-URL
    statistics are the stored history's newest entries, newest first: at most
    50 of them, in non-increasing order of instant, taken from the history,
    and no entry left out is newer than an entry kept.  For any other id the
    answer is the 404 branch. *)
Theorem recent_clicks_are_the_newest :
  forall (caller urlId : ObjectId) (w : World),
    match find (Store.by_id_and_owner urlId caller) (urls w) with
    | Some url =>
        exists recent rest,
          url_recentClicks caller urlId w = Some recent
          /\ List.length recent = Nat.min 50 (List.length (clickHistory url))
          /\ StronglySorted not_older recent
          /\ Permutation (clickHistory url) (recent ++ rest)
          /\ (forall c d, In c recent -> In d rest ->
                          timestamp d <= timestamp c)
    | None => url_recentClicks caller urlId w = None
    end.
Proof.
  intros caller urlId w. unfold url_recentClicks.
  destruct (find _ (urls w)) as [url |]; [| reflexivity].
  set (sorted := sort_newest_first (clickHistory url)).
  exists (firstn 50 sorted), (skipn 50 sorted).
  destruct (sorted_split 50 sorted (sort_sorted _)) as [Hs Hcut].
  split; [reflexivity |]. split; [| split; [exact Hs | split; [| exact Hcut]]].
  - rewrite length_firstn. unfold sorted.
    now rewrite (Permutation_length (sort_perm (clickHistory url))).
  - rewrite firstn_skipn. symmetry. apply sort_perm.
Qed.

End ListingFacts.
